(** * DCF worker ([workers/dcf/app.py]): shallow embedding and properties

    The valuation engine is embedded function by function.  Python's
    [float] values are idealised as exact rationals ([Q]): every
    arithmetic operation is the exact one, so rounding error, overflow to
    infinity and NaN are outside the model.  What is kept from Python:

    - [a / b] raises [ZeroDivisionError] when [b] is zero;
    - [flows[-1]] raises [IndexError] on an empty list;
    - [max] and [min] return their first argument unless the second is
      strictly larger (resp. smaller);
    - [round(x, 2)] rounds half to even;
    - [int(x)] truncates toward zero;
    - dictionaries keyed by strings are [gmap string _]; the dictionaries
      with a fixed set of keys built by [_scenario_defaults] and by the
      projection loop are records. *)

From Stdlib Require Import QArith Qround Qpower Lqa ZArith Lia.
From stdpp Require Import gmap strings list pretty.

Local Open Scope Z_scope.
Local Open Scope Q_scope.

(** ** Exceptions and the error monad *)

Inductive exn : Set :=
| ZeroDivisionError
| IndexError.

Inductive result (A : Type) : Type :=
| Ok (a : A)
| Raise (e : exn).
Arguments Ok {A} a.
Arguments Raise {A} e.

Definition bind {A B : Type} (m : result A) (k : A -> result B) : result B :=
  match m with
  | Ok a => k a
  | Raise e => Raise e
  end.

Notation "'let*' x ':=' m 'in' k" := (bind m (fun x => k))
  (at level 10, x pattern, m at level 100, k at level 200).

(** [for x in xs: st = body(st, x)], stopping at the first exception. *)
Fixpoint for_each {S A : Type} (body : S -> A -> result S) (xs : list A) (st : S)
  : result S :=
  match xs with
  | [] => Ok st
  | x :: xs' => let* st' := body st x in for_each body xs' st'
  end.

(** ** Python numerics over [Q] *)

Definition Qltb (a b : Q) : bool := negb (Qle_bool b a).

(** [max(a, b)]: [b] when [b > a], else [a]. *)
Definition py_max (a b : Q) : Q := if Qltb a b then b else a.

(** [min(a, b)]: [b] when [b < a], else [a]. *)
Definition py_min (a b : Q) : Q := if Qltb b a then b else a.

(** [a / b] on floats.  Only [ZeroDivisionError] is modelled: a quotient
    beyond the float range is [inf] in Python and the exact rational here. *)
Definition fdiv (a b : Q) : result Q :=
  if Qeq_bool b 0 then Raise ZeroDivisionError else Ok (a / b).

(** [b ** e] for a float base and an int exponent.  Python raises
    [OverflowError] when the result leaves the float range and gives [0.0]
    when it underflows; neither is modelled, the power here is exact.  So
    nothing below says that a call returns for all inputs of some kind:
    the statements are about the calls that do return, or name an
    exception that is raised. *)
Definition fpow (b : Q) (e : Z) : result Q :=
  if Qeq_bool b 0 && (e <? 0)%Z then Raise ZeroDivisionError else Ok (b ^ e).

(** [int(x)]: truncation toward zero. *)
Definition py_int (x : Q) : Z := Z.quot (Qnum x) (Zpos (Qden x)).

(** Nearest integer, ties to the even one. *)
Definition round_half_even (x : Q) : Z :=
  let f := Qfloor x in
  match Qcompare (x - inject_Z f) (1 # 2) with
  | Lt => f
  | Gt => (f + 1)%Z
  | Eq => if Z.even f then f else (f + 1)%Z
  end.

(** [round(x, 2)]. *)
Definition round2 (x : Q) : Q := inject_Z (round_half_even (x * 100)) / 100.

(** [range(a, b)]. *)
Definition py_range (a b : Z) : list Z := seqZ a (b - a).

(** [xs[-1]]. *)
Definition last_item {A : Type} (xs : list A) : result A :=
  match last xs with
  | Some x => Ok x
  | None => Raise IndexError
  end.

(** ** Request model *)

(** An override dictionary maps field names to JSON numbers.  [bull] and
    [bear] are [None] when the request omits them. *)
Record Scenarios : Type := {
  base : gmap string Q;
  bull : option (gmap string Q);
  bear : option (gmap string Q)
}.

(** The request body; [wacc] is a percentage or a decimal. *)
Record DcfRequest : Type := {
  req_ticker : string;
  req_horizon : Z;
  req_wacc : option Q;
  req_scenarios : option Scenarios
}.

(** ** Parameter normalisation *)

Definition _pct (x : option Q) (default : Q) : Q :=
  match x with
  | None => default
  | Some x => if Qltb 1 x then x / 100 else x
  end.

Record ScenarioParameters : Type := {
  revenue0 : Q;
  growth : Q;
  growth_decay : Q;
  ebit_margin : Q;
  tax_rate : Q;
  reinvestment_rate : Q;
  terminal_g : Q;
  wacc : Q;
  shares_out : Q;
  net_debt : Q;
  horizon : Z
}.

Definition _scenario_defaults (overrides : option (gmap string Q)) (horizon : Z) (r : Q)
  : ScenarioParameters :=
  let o := default ∅ overrides in
  {| revenue0 := default 1000 (o !! "revenue0"%string);
     growth := _pct (o !! "growth"%string) 0.10;
     growth_decay := _pct (o !! "growth_decay"%string) 0.02;
     ebit_margin := _pct (o !! "ebit_margin"%string) 0.20;
     tax_rate := _pct (o !! "tax_rate"%string) 0.21;
     reinvestment_rate := _pct (o !! "reinvestment_rate"%string) 0.35;
     terminal_g := _pct (o !! "terminal_g"%string) 0.02;
     wacc := _pct (o !! "wacc"%string) r;
     shares_out := default 0 (o !! "shares_out"%string);
     net_debt := default 0 (o !! "net_debt"%string);
     horizon := from_option py_int horizon (o !! "horizon"%string) |}.

(** ** Cash-flow projection and terminal value *)

Record CashFlowRow : Type := {
  year : Q;
  revenue : Q;
  ebit : Q;
  nopat : Q;
  reinvestment : Q;
  fcf : Q;
  discountFactor : Q;
  pv_fcf : Q;
  cum_pv : Q
}.

(** The inner helper of [_project_cash_flows]; it closes over
    [g_terminal] and [g_decay]. *)
Definition next_growth (g_terminal g_decay curr : Q) : Q :=
  if Qltb g_terminal curr
  then py_max g_terminal (curr - g_decay)
  else py_min g_terminal (curr + g_decay).

(** The variables the yearly loop updates. *)
Record LoopState : Type := {
  ls_rev : Q;
  ls_g : Q;
  ls_pv_sum : Q;
  ls_flows : list CashFlowRow
}.

(** One iteration of [for t in range(1, N + 1)]. *)
Definition year_body (s : ScenarioParameters) (st : LoopState) (t : Z)
  : result LoopState :=
  let rev := ls_rev st * (1 + ls_g st) in
  let ebit := rev * ebit_margin s in
  let nopat := ebit * (1 - tax_rate s) in
  let reinvest := py_max 0 (nopat * reinvestment_rate s) in
  let fcf := nopat - reinvest in
  let* p := fpow (1 + wacc s) t in
  let* df := fdiv 1 p in
  let pv_fcf := fcf * df in
  let pv_sum := ls_pv_sum st + pv_fcf in
  Ok {| ls_rev := rev;
        ls_g := next_growth (terminal_g s) (growth_decay s) (ls_g st);
        ls_pv_sum := pv_sum;
        ls_flows := ls_flows st ++
          [ {| year := inject_Z t; revenue := rev; ebit := ebit; nopat := nopat;
               reinvestment := reinvest; fcf := fcf; discountFactor := df;
               pv_fcf := pv_fcf; cum_pv := pv_sum |} ] |}.

Definition loop_init (s : ScenarioParameters) : LoopState :=
  {| ls_rev := revenue0 s; ls_g := growth s; ls_pv_sum := 0; ls_flows := [] |}.

(** The yearly loop alone. *)
Definition project_loop (s : ScenarioParameters) : result LoopState :=
  for_each (year_body s) (py_range 1 (horizon s + 1)) (loop_init s).

(** [max(1e-6, wacc - g)], the Gordon denominator. *)
Definition gordon_denominator (r g : Q) : Q := py_max 1e-6 (r - g).

Definition _project_cash_flows (s : ScenarioParameters)
  : result (list CashFlowRow * Q * Q) :=
  let N := horizon s in
  let g_terminal := terminal_g s in
  let reinv := reinvestment_rate s in
  let r := wacc s in
  let* st := project_loop s in
  let flows := ls_flows st in
  let* last := last_item flows in
  let nopat_next := nopat last * (1 + g_terminal) in
  let fcf_next := nopat_next * (1 - reinv) in
  let* tv := fdiv fcf_next (gordon_denominator r g_terminal) in
  let* p := fpow (1 + r) N in
  let* pv_tv := fdiv tv p in
  Ok (flows, tv, pv_tv).

(** ** Sensitivity grid *)

Record SensitivityPoint : Type := {
  sp_wacc : Q;
  sp_terminalG : Q;
  sp_value : Q
}.

(** [range(6, 13)] and the literal list of the inner loop. *)
Definition wacc_grid : list Z := py_range 6 13.
Definition terminalG_grid : list Q := [0.0; 0.5; 1.0; 1.5; 2.0; 2.5].

(** Body of the inner loop: one grid cell, appended to [sensitivity]. *)
Definition sensitivity_cell (fcf_next : Q) (last_base : CashFlowRow) (N : Z) (w : Z)
    (sensitivity : list SensitivityPoint) (g_i : Q) : result (list SensitivityPoint) :=
  let g := g_i / 100 in
  let rr := inject_Z w / 100 in
  let* tv := fdiv fcf_next (gordon_denominator rr g) in
  let* p := fpow (1 + rr) N in
  let* pv_tv := fdiv tv p in
  let value := cum_pv last_base + pv_tv in
  Ok (sensitivity ++
      [ {| sp_wacc := inject_Z w; sp_terminalG := g_i; sp_value := round2 value |} ]).

(** Both loops. *)
Definition sensitivity_grid (fcf_next : Q) (last_base : CashFlowRow) (N : Z)
  : result (list SensitivityPoint) :=
  for_each
    (fun sensitivity w =>
       for_each (sensitivity_cell fcf_next last_base N w) terminalG_grid sensitivity)
    wacc_grid [].

(** ** The export boundary *)

(** What the wall clock, the installed packages and the file system
    contribute to one call. *)
Record Env : Type := {
  now_ms : Z;             (* int(datetime.now(timezone.utc).timestamp()*1000) *)
  HAS_OPENPYXL : bool;
  makedirs_ok : bool;     (* os.makedirs returns rather than raises *)
  save_ok : bool          (* building and saving the workbook does not raise *)
}.

Record Assumptions : Type := {
  a_ticker : string;
  a_horizon : Z;
  a_wacc : Q;
  a_notes : string
}.

(** [_write_workbook] only reads its four tables; the sheets it fills are
    not modelled.  [None] stands for an exception, which the caller
    swallows whatever its class. *)
Definition _write_workbook (env : Env) (base_dir : string) (assumptions : Assumptions)
    (pv_by_scenario : gmap string Q) (sensitivity : list SensitivityPoint)
    (flows_by_scenario : gmap string (list CashFlowRow)) : option (option string) :=
  if negb (HAS_OPENPYXL env) then Some None
  else if save_ok env then Some (Some (base_dir +:+ "/dcf.xlsx"))
  else None.

(** The [try: ... except Exception: pass] block that fills [files]. *)
Definition export_files (env : Env) (assumptions : Assumptions)
    (pv_by_scenario : gmap string Q) (sensitivity : list SensitivityPoint)
    (flows_by : gmap string (list CashFlowRow)) : list string :=
  let base_dir := "/tmp/madlab-dcf-" +:+ pretty (now_ms env) in
  if negb (makedirs_ok env) then []
  else match _write_workbook env base_dir assumptions pv_by_scenario sensitivity flows_by with
       | Some (Some xlsx) => match xlsx with EmptyString => [] | _ => [xlsx] end
       | Some None => []
       | None => []
       end.

(** ** The endpoint *)

Record DcfResponse : Type := {
  assumptions : Assumptions;
  pvByScenario : gmap string Q;
  sensitivity : list SensitivityPoint;
  files : list string;
  explain : string
}.

(** Everything [dcf] computes before the export step: the three returned
    tables, [flows_by], which only the export collaborator sees, and the
    local variable [ev_base] (the base value before rounding). *)
Record Core : Type := {
  c_assumptions : Assumptions;
  c_pv_by_scenario : gmap string Q;
  c_sensitivity : list SensitivityPoint;
  c_flows_by : gmap string (list CashFlowRow);
  c_ev_base : Q
}.

Definition default_scenarios : Scenarios := {| base := ∅; bull := None; bear := None |}.

(** The body of [dcf] up to, and not including, the export block. *)
Definition dcf_core (req : DcfRequest) : result Core :=
  let r := _pct (req_wacc req) 0.10 in
  let N := Z.max 1 (req_horizon req) in
  let sc := default default_scenarios (req_scenarios req) in
  let s_base := _scenario_defaults (Some (base sc)) N r in
  let s_bull := (fun o => _scenario_defaults (Some o) N r) <$> bull sc in
  let s_bear := (fun o => _scenario_defaults (Some o) N r) <$> bear sc in
  let flows_by : gmap string (list CashFlowRow) := ∅ in
  let pv_by_scenario : gmap string Q := ∅ in
  let* (base_flows, _base_tv, base_pv_tv) := _project_cash_flows s_base in
  let* base_last := last_item base_flows in
  let ev_base := cum_pv base_last + base_pv_tv in
  let flows_by := <["base"%string := base_flows]> flows_by in
  let pv_by_scenario := <["base"%string := round2 ev_base]> pv_by_scenario in
  let* (flows_by, pv_by_scenario) :=
    match s_bull with
    | Some s_bull =>
        let* (bull_flows, _, bull_pv_tv) := _project_cash_flows s_bull in
        let* bull_last := last_item bull_flows in
        let ev_bull := cum_pv bull_last + bull_pv_tv in
        Ok (<["bull"%string := bull_flows]> flows_by,
            <["bull"%string := round2 ev_bull]> pv_by_scenario)
    | None => Ok (flows_by, <["bull"%string := round2 (ev_base * 1.2)]> pv_by_scenario)
    end in
  let* (flows_by, pv_by_scenario) :=
    match s_bear with
    | Some s_bear =>
        let* (bear_flows, _, bear_pv_tv) := _project_cash_flows s_bear in
        let* bear_last := last_item bear_flows in
        let ev_bear := cum_pv bear_last + bear_pv_tv in
        Ok (<["bear"%string := bear_flows]> flows_by,
            <["bear"%string := round2 ev_bear]> pv_by_scenario)
    | None => Ok (flows_by, <["bear"%string := round2 (ev_base * 0.8)]> pv_by_scenario)
    end in
  let* last_base := last_item (default [] (flows_by !! "base"%string)) in
  let base_g := terminal_g s_base in
  let reinv := reinvestment_rate s_base in
  let nopat_next := nopat last_base * (1 + base_g) in
  let fcf_next := nopat_next * (1 - reinv) in
  let* sensitivity := sensitivity_grid fcf_next last_base N in
  let assumptions :=
    {| a_ticker := req_ticker req;
       a_horizon := N;
       a_wacc := round2 (r * 100);
       a_notes := "Fundamentals-driven DCF using simple revenue->EBIT->NOPAT and reinvestment policy." |} in
  Ok {| c_assumptions := assumptions;
        c_pv_by_scenario := pv_by_scenario;
        c_sensitivity := sensitivity;
        c_flows_by := flows_by;
        c_ev_base := ev_base |}.

Definition dcf (env : Env) (req : DcfRequest) : result DcfResponse :=
  let* c := dcf_core req in
  let files := export_files env (c_assumptions c) (c_pv_by_scenario c)
                 (c_sensitivity c) (c_flows_by c) in
  Ok {| assumptions := c_assumptions c;
        pvByScenario := c_pv_by_scenario c;
        sensitivity := c_sensitivity c;
        files := files;
        explain := "DCF computed with fundamentals-based cash flow projection and Gordon terminal value." |}.

(** ** Derived notions used in the statements *)

(** Growth rate in force during year [k + 1]: the start value after [k]
    decay steps. *)
Definition growth_at (s : ScenarioParameters) (k : nat) : Q :=
  Nat.iter k (next_growth (terminal_g s) (growth_decay s)) (growth s).

(** Revenue after [k] years of compounding at the decaying rate. *)
Fixpoint revenue_at (s : ScenarioParameters) (k : nat) : Q :=
  match k with
  | O => revenue0 s
  | Datatypes.S k' => revenue_at s k' * (1 + growth_at s k')
  end.

(** What holds of the loop variables after [k] iterations. *)
Definition loop_inv (s : ScenarioParameters) (k : nat) (st : LoopState) : Prop :=
  length (ls_flows st) = k /\
  ls_g st = growth_at s k /\
  ls_rev st = revenue_at s k /\
  forall i row, ls_flows st !! i = Some row ->
    year row = inject_Z (Z.of_nat i + 1) /\
    discountFactor row = 1 / (1 + wacc s) ^ (Z.of_nat i + 1) /\
    revenue row = revenue_at s i * (1 + growth_at s i) /\
    ~ (1 + wacc s) ^ (Z.of_nat i + 1) == 0.

(** The keys that [_scenario_defaults] passes through [_pct]. *)
Definition rate_fields : list string :=
  ["growth"; "growth_decay"; "ebit_margin"; "tax_rate"; "reinvestment_rate";
   "terminal_g"; "wacc"]%string.

(** The normalised field stored under a rate-like key. *)
Definition rate_field (k : string) (s : ScenarioParameters) : option Q :=
  if String.eqb k "growth" then Some (growth s)
  else if String.eqb k "growth_decay" then Some (growth_decay s)
  else if String.eqb k "ebit_margin" then Some (ebit_margin s)
  else if String.eqb k "tax_rate" then Some (tax_rate s)
  else if String.eqb k "reinvestment_rate" then Some (reinvestment_rate s)
  else if String.eqb k "terminal_g" then Some (terminal_g s)
  else if String.eqb k "wacc" then Some (wacc s)
  else None.

(** The point one grid cell appends, as a closed formula. *)
Definition cell_point (fcf_next cum : Q) (N : Z) (w : Z) (g_i : Q) : SensitivityPoint :=
  {| sp_wacc := inject_Z w;
     sp_terminalG := g_i;
     sp_value :=
       round2 (cum + fcf_next / py_max 1e-6 (inject_Z w / 100 - g_i / 100)
                       / (1 + inject_Z w / 100) ^ N) |}.

(** All cells, outer loop over [w], inner loop over [g_i]. *)
Definition sensitivity_points (fcf_next cum : Q) (N : Z) : list SensitivityPoint :=
  flat_map (fun w => map (cell_point fcf_next cum N w) terminalG_grid) wacc_grid.

(** Names for the values [dcf] binds first. *)
Definition request_wacc (req : DcfRequest) : Q := _pct (req_wacc req) 0.10.
Definition request_horizon (req : DcfRequest) : Z := Z.max 1 (req_horizon req).
Definition request_scenarios (req : DcfRequest) : Scenarios :=
  default default_scenarios (req_scenarios req).
Definition override_parameters (req : DcfRequest) (o : gmap string Q) : ScenarioParameters :=
  _scenario_defaults (Some o) (request_horizon req) (request_wacc req).
Definition base_parameters (req : DcfRequest) : ScenarioParameters :=
  override_parameters req (base (request_scenarios req)).

(** [s] was projected, giving rows [flows] and the unrounded enterprise
    value [ev]. *)
Definition projected (s : ScenarioParameters) (flows : list CashFlowRow) (ev : Q) : Prop :=
  exists tv pv_tv last_row,
    _project_cash_flows s = Ok (flows, tv, pv_tv) /\
    last flows = Some last_row /\
    ev = cum_pv last_row + pv_tv.

(** How [dcf] fills the entries of an optional scenario [name]: projected
    when the override is supplied, else [factor] times the base value and
    no rows. *)
Definition optional_scenario (req : DcfRequest) (c : Core) (name : string) (factor : Q)
    (override : option (gmap string Q)) : Prop :=
  match override with
  | Some o =>
      exists flows ev,
        projected (override_parameters req o) flows ev /\
        c_pv_by_scenario c !! name = Some (round2 ev) /\
        c_flows_by c !! name = Some flows
  | None =>
      c_pv_by_scenario c !! name = Some (round2 (c_ev_base c * factor)) /\
      c_flows_by c !! name = None
  end.

(** Without these a projection raises: at least one year, and
    [1 + wacc] not zero. *)
Definition projectable (s : ScenarioParameters) : Prop :=
  (1 <= horizon s)%Z /\ ~ 1 + wacc s == 0.

(** The cell value as the specification words it: [nopat_next] and
    [fcf_next] recomputed with the cell's own terminal growth. *)
Definition spec_cell_value (last_row : CashFlowRow) (reinvestment_rate : Q) (horizon : Z)
    (wacc_percent : Z) (terminalG_percent : Q) : Q :=
  let terminal_g := terminalG_percent / 100 in
  let wacc := inject_Z wacc_percent / 100 in
  let nopat_next := nopat last_row * (1 + terminal_g) in
  let fcf_next := nopat_next * (1 - reinvestment_rate) in
  let tv := fcf_next / py_max 1e-6 (wacc - terminal_g) in
  let pv_tv := tv / (1 + wacc) ^ horizon in
  round2 (cum_pv last_row + pv_tv).

(** ** Requests used as examples *)

Definition env0 : Env :=
  {| now_ms := 1700000000000; HAS_OPENPYXL := true; makedirs_ok := true; save_ok := true |}.

(** [{ticker: "ACME", horizon: 5, wacc: 10, scenarios: {base: {}}}] *)
Definition acme : DcfRequest :=
  {| req_ticker := "ACME"; req_horizon := 5; req_wacc := Some 10;
     req_scenarios := Some {| base := ∅; bull := None; bear := None |} |}.

(** [{ticker: "ACME", horizon: 1, scenarios: {base: {revenue0: 10}}}] *)
Definition acme_small : DcfRequest :=
  {| req_ticker := "ACME"; req_horizon := 1; req_wacc := None;
     req_scenarios :=
       Some {| base := {[ "revenue0"%string := 10 ]}; bull := None; bear := None |} |}.

(** [{ticker: "ACME", horizon: 5, scenarios: {base: {horizon: 0}}}] *)
Definition acme_base_horizon_0 : DcfRequest :=
  {| req_ticker := "ACME"; req_horizon := 5; req_wacc := None;
     req_scenarios :=
       Some {| base := {[ "horizon"%string := 0 ]}; bull := None; bear := None |} |}.

(** [{ticker: "ACME", horizon: 0}] *)
Definition acme_horizon_0 : DcfRequest :=
  {| req_ticker := "ACME"; req_horizon := 0; req_wacc := None; req_scenarios := None |}.

(** [{ticker: "ACME", horizon: 1, wacc: -1.0}] *)
Definition acme_wacc_minus_1 : DcfRequest :=
  {| req_ticker := "ACME"; req_horizon := 1; req_wacc := Some (-1); req_scenarios := None |}.


(** ** Closed forms of the projected rows *)

(** NOPAT, free cash flow and discount factor of year [i + 1]. *)
Definition nopat_at (s : ScenarioParameters) (i : nat) : Q :=
  revenue_at s (Datatypes.S i) * ebit_margin s * (1 - tax_rate s).

Definition fcf_at (s : ScenarioParameters) (i : nat) : Q :=
  nopat_at s i - py_max 0 (nopat_at s i * reinvestment_rate s).

Definition discount_at (s : ScenarioParameters) (i : nat) : Q :=
  1 / (1 + wacc s) ^ (1 + Z.of_nat i).

(** [pv_sum] after [k] years. *)
Fixpoint cum_pv_at (s : ScenarioParameters) (k : nat) : Q :=
  match k with
  | O => 0
  | Datatypes.S k' => cum_pv_at s k' + fcf_at s k' * discount_at s k'
  end.

(** The dictionary appended to [flows] in year [i + 1]. *)
Definition row_at (s : ScenarioParameters) (i : nat) : CashFlowRow :=
  {| year := inject_Z (1 + Z.of_nat i);
     revenue := revenue_at s (Datatypes.S i);
     ebit := revenue_at s (Datatypes.S i) * ebit_margin s;
     nopat := nopat_at s i;
     reinvestment := py_max 0 (nopat_at s i * reinvestment_rate s);
     fcf := fcf_at s i;
     discountFactor := discount_at s i;
     pv_fcf := fcf_at s i * discount_at s i;
     cum_pv := cum_pv_at s (Datatypes.S i) |}.

(** The loop variables after [k] iterations, in closed form. *)
Definition loop_rows_inv (s : ScenarioParameters) (k : nat) (st : LoopState) : Prop :=
  ls_flows st = map (row_at s) (seq 0 k) /\
  ls_rev st = revenue_at s k /\
  ls_g st = growth_at s k /\
  ls_pv_sum st = cum_pv_at s k.

(** Every key [_scenario_defaults] reads. *)
Definition scenario_keys : list string :=
  rate_fields ++ ["revenue0"; "shares_out"; "net_debt"; "horizon"]%string.

(** [s'] is [s] with [revenue0] multiplied by [c]. *)
Definition revenue_scaled (c : Q) (s s' : ScenarioParameters) : Prop :=
  revenue0 s' == c * revenue0 s /\
  growth s' = growth s /\ growth_decay s' = growth_decay s /\
  ebit_margin s' = ebit_margin s /\ tax_rate s' = tax_rate s /\
  reinvestment_rate s' = reinvestment_rate s /\ terminal_g s' = terminal_g s /\
  wacc s' = wacc s /\ horizon s' = horizon s.

(** Inputs in their usual ranges: nothing negative that should not be,
    no rate above 100 percent where that would flip a sign. *)
Definition usual_inputs (s : ScenarioParameters) : Prop :=
  0 <= revenue0 s /\ -1 <= growth s /\ -1 <= terminal_g s /\ 0 <= growth_decay s /\
  0 <= ebit_margin s /\ tax_rate s <= 1 /\ reinvestment_rate s <= 1 /\ -1 < wacc s.

(** Sum of a list of floats, left to right from 0. *)
Definition Qsum (xs : list Q) : Q := fold_left Qplus xs 0.

(** * Properties *)

(** ** Numeric helpers *)

Section Numerics.

Lemma Qltb_lt (a b : Q) : Qltb a b = true <-> a < b.
Proof.
  unfold Qltb. rewrite negb_true_iff, <- not_true_iff_false, Qle_bool_iff.
  split; [apply Qnot_le_lt | apply Qlt_not_le].
Qed.

Lemma Qltb_ge (a b : Q) : Qltb a b = false <-> b <= a.
Proof.
  unfold Qltb. rewrite negb_false_iff. apply Qle_bool_iff.
Qed.

Lemma py_max_cases (a b : Q) :
  (a < b /\ py_max a b = b) \/ (b <= a /\ py_max a b = a).
Proof.
  unfold py_max. destruct (Qltb a b) eqn:E.
  - left. split; [now apply Qltb_lt | reflexivity].
  - right. split; [now apply Qltb_ge | reflexivity].
Qed.

Lemma py_min_cases (a b : Q) :
  (b < a /\ py_min a b = b) \/ (a <= b /\ py_min a b = a).
Proof.
  unfold py_min. destruct (Qltb b a) eqn:E.
  - left. split; [now apply Qltb_lt | reflexivity].
  - right. split; [now apply Qltb_ge | reflexivity].
Qed.

Lemma fdiv_Ok (a b : Q) : ~ b == 0 -> fdiv a b = Ok (a / b).
Proof.
  intros Hb. unfold fdiv. destruct (Qeq_bool b 0) eqn:E; [| reflexivity].
  apply Qeq_bool_eq in E. contradiction.
Qed.

Lemma fdiv_zero (a b : Q) : b == 0 -> fdiv a b = Raise ZeroDivisionError.
Proof.
  intros Hb. unfold fdiv. apply Qeq_bool_iff in Hb. now rewrite Hb.
Qed.

Lemma fpow_Ok_nonzero (b : Q) (e : Z) : ~ b == 0 -> fpow b e = Ok (b ^ e).
Proof.
  intros Hb. unfold fpow. destruct (Qeq_bool b 0) eqn:E; [| reflexivity].
  apply Qeq_bool_eq in E. contradiction.
Qed.

Lemma fpow_Ok_nonneg (b : Q) (e : Z) : (0 <= e)%Z -> fpow b e = Ok (b ^ e).
Proof.
  intros He. unfold fpow. replace (e <? 0)%Z with false by lia.
  now rewrite andb_false_r.
Qed.

Lemma gordon_denominator_pos (r g : Q) : 0 < gordon_denominator r g.
Proof.
  unfold gordon_denominator.
  destruct (py_max_cases 1e-6 (r - g)) as [[H ->] | [H ->]].
  - eapply Qlt_trans; [| exact H]. reflexivity.
  - reflexivity.
Qed.


Lemma gordon_denominator_above (r g : Q) :
  1e-6 < r - g -> gordon_denominator r g = r - g.
Proof.
  intros H. unfold gordon_denominator.
  destruct (py_max_cases 1e-6 (r - g)) as [[_ ->] | [H' _]]; [reflexivity |].
  exfalso. apply (Qlt_not_le _ _ H), H'.
Qed.

Lemma Qpower_succ (a : Q) (n : Z) : ~ a == 0 -> a ^ (n + 1) == a ^ n * a.
Proof.
  intros Ha. rewrite Qpower_plus by exact Ha. now rewrite Qpower_1_r.
Qed.

End Numerics.

(** ** Loops *)

Section Loops.

Context {S A : Type}.
Implicit Types (body : S -> A -> result S) (xs : list A) (st : S).

Lemma for_each_snoc body xs x st :
  for_each body (xs ++ [x]) st = let* st' := for_each body xs st in body st' x.
Proof.
  revert st. induction xs as [| y ys IH]; intros st; simpl.
  - destruct (body st x); reflexivity.
  - destruct (body st y) as [st' | e]; simpl; [apply IH | reflexivity].
Qed.

(** A loop that raises nowhere keeps an invariant indexed by the number of
    iterations done. *)
Lemma for_each_invariant (I : nat -> S -> Prop) body xs st0 st :
  I 0%nat st0 ->
  (forall k x s s', xs !! k = Some x -> I k s -> body s x = Ok s' -> I (Datatypes.S k) s') ->
  for_each body xs st0 = Ok st ->
  I (length xs) st.
Proof.
  revert st. induction xs as [| x xs IH] using rev_ind; intros st H0 Hstep Hrun.
  - simpl in Hrun. now inversion Hrun; subst.
  - rewrite for_each_snoc in Hrun.
    destruct (for_each body xs st0) as [st1 |] eqn:E; simpl in Hrun; [| discriminate].
    rewrite length_app; simpl. replace (length xs + 1)%nat with (Datatypes.S (length xs)) by lia.
    apply (Hstep (length xs) x st1 st).
    + rewrite lookup_app_r by lia. now rewrite Nat.sub_diag.
    + apply IH; [exact H0 | | reflexivity].
      intros k y s s' Hk. apply Hstep. rewrite lookup_app_l; [exact Hk |].
      now apply lookup_lt_Some in Hk.
    + exact Hrun.
Qed.

(** A loop whose body never raises on states satisfying an invariant runs
    to completion. *)
Lemma for_each_total (I : nat -> S -> Prop) body xs st0 :
  I 0%nat st0 ->
  (forall k x s, xs !! k = Some x -> I k s ->
     exists s', body s x = Ok s' /\ I (Datatypes.S k) s') ->
  exists st, for_each body xs st0 = Ok st /\ I (length xs) st.
Proof.
  induction xs as [| x xs IH] using rev_ind; intros H0 Hstep.
  - exists st0. split; [reflexivity | exact H0].
  - destruct IH as (st1 & Hrun & HI); [exact H0 | |].
    + intros k y s Hk. apply Hstep. rewrite lookup_app_l; [exact Hk |].
      now apply lookup_lt_Some in Hk.
    + destruct (Hstep (length xs) x st1) as (st2 & Hb & HI2); [| exact HI |].
      * rewrite lookup_app_r by lia. now rewrite Nat.sub_diag.
      * exists st2. rewrite for_each_snoc, Hrun. simpl. split; [exact Hb |].
        rewrite length_app; simpl.
        now replace (length xs + 1)%nat with (Datatypes.S (length xs)) by lia.
Qed.

End Loops.

(** A loop that appends one computed item per iteration is a [map]. *)
Lemma for_each_append {A B : Type} (body : list B -> A -> result (list B))
    (f : A -> list B) (P : A -> Prop) (xs : list A) (acc : list B) :
  (forall x acc, P x -> body acc x = Ok (acc ++ f x)) ->
  Forall P xs ->
  for_each body xs acc = Ok (acc ++ concat (map f xs)).
Proof.
  intros Hbody HP. revert acc.
  induction HP as [| x xs Hx _ IH]; intros acc; simpl.
  - now rewrite app_nil_r.
  - rewrite (Hbody x acc Hx). simpl. rewrite IH. now rewrite app_assoc.
Qed.

(** ** The projection loop *)

Section Projection.

Variable s : ScenarioParameters.

Lemma loop_inv_init : loop_inv s 0 (loop_init s).
Proof.
  unfold loop_inv. split; [reflexivity |]. split; [reflexivity |].
  split; [reflexivity |]. intros i row Hi. simpl in Hi.
  rewrite lookup_nil in Hi. discriminate.
Qed.

Lemma year_body_inv (k : nat) (st st' : LoopState) :
  loop_inv s k st ->
  year_body s st (1 + Z.of_nat k) = Ok st' ->
  loop_inv s (Datatypes.S k) st'.
Proof.
  intros (Hlen & Hg & Hrev & Hrows) Hbody. unfold year_body in Hbody.
  destruct (fpow (1 + wacc s) (1 + Z.of_nat k)) as [p |] eqn:Ep; simpl in Hbody;
    [| discriminate].
  unfold fpow in Ep.
  destruct (Qeq_bool (1 + wacc s) 0 && (1 + Z.of_nat k <? 0)%Z); [discriminate |].
  injection Ep as <-.
  unfold fdiv in Hbody.
  destruct (Qeq_bool ((1 + wacc s) ^ (1 + Z.of_nat k)) 0) eqn:Ez; simpl in Hbody;
    [discriminate |].
  apply Qeq_bool_neq in Ez. injection Hbody as <-. unfold loop_inv. simpl.
  split; [rewrite length_app, Hlen; simpl; lia |].
  split; [now rewrite Hg |].
  split; [now rewrite Hrev, Hg |].
  intros i row Hi. destruct (decide (i = k)) as [-> | Hne].
  - rewrite lookup_app_r in Hi by lia. rewrite Hlen, Nat.sub_diag in Hi.
    injection Hi as <-. simpl. rewrite (Z.add_comm (Z.of_nat k) 1), Hrev, Hg.
    split; [reflexivity |]. split; [reflexivity |]. split; [reflexivity | exact Ez].
  - rewrite lookup_app_l in Hi; [now apply Hrows in Hi |].
    apply lookup_lt_Some in Hi. rewrite length_app in Hi. simpl in Hi. lia.
Qed.

(** The loop, when it completes, has produced one row per year. *)
Lemma project_loop_inv (st : LoopState) :
  project_loop s = Ok st -> loop_inv s (Z.to_nat (horizon s)) st.
Proof.
  intros Hrun. unfold project_loop, py_range in Hrun.
  apply (for_each_invariant (loop_inv s)) in Hrun.
  - rewrite length_seqZ in Hrun.
    now replace (horizon s + 1 - 1)%Z with (horizon s) in Hrun by lia.
  - apply loop_inv_init.
  - intros k x st1 st2 Hk HI Hb. apply lookup_seqZ in Hk as [-> _].
    now apply (year_body_inv k st1 st2).
Qed.

Lemma year_body_Ok (st : LoopState) (t : Z) :
  ~ 1 + wacc s == 0 -> exists st', year_body s st t = Ok st' /\
    length (ls_flows st') = Datatypes.S (length (ls_flows st)).
Proof.
  intros Hr. unfold year_body.
  rewrite (fpow_Ok_nonzero _ _ Hr). simpl.
  rewrite fdiv_Ok by now apply Qpower_not_0. simpl.
  eexists. split; [reflexivity |]. simpl. rewrite length_app. simpl. lia.
Qed.

(** With [1 + wacc] nonzero no iteration raises. *)
Lemma project_loop_Ok :
  ~ 1 + wacc s == 0 ->
  exists st, project_loop s = Ok st /\ length (ls_flows st) = Z.to_nat (horizon s).
Proof.
  intros Hr. unfold project_loop, py_range.
  destruct (for_each_total (fun k st => length (ls_flows st) = k) (year_body s)
              (seqZ 1 (horizon s + 1 - 1)) (loop_init s)) as (st & Hrun & Hlen).
  - reflexivity.
  - intros k x st _ Hlen. destruct (year_body_Ok st x Hr) as (st' & Hb & Hl).
    exists st'. split; [exact Hb | lia].
  - exists st. split; [exact Hrun |]. rewrite length_seqZ in Hlen.
    rewrite Hlen. f_equal. lia.
Qed.

(** With [1 + wacc] nonzero and at least one year the whole function
    returns. *)
Lemma _project_cash_flows_Ok :
  (1 <= horizon s)%Z -> ~ 1 + wacc s == 0 ->
  exists flows last_row,
    last flows = Some last_row /\
    length flows = Z.to_nat (horizon s) /\
    _project_cash_flows s =
      Ok (flows,
          nopat last_row * (1 + terminal_g s) * (1 - reinvestment_rate s)
            / gordon_denominator (wacc s) (terminal_g s),
          nopat last_row * (1 + terminal_g s) * (1 - reinvestment_rate s)
            / gordon_denominator (wacc s) (terminal_g s)
            / (1 + wacc s) ^ horizon s).
Proof.
  intros HN Hr. destruct (project_loop_Ok Hr) as (st & Hrun & Hlen).
  destruct (last (ls_flows st)) as [last_row |] eqn:El.
  - exists (ls_flows st), last_row. split; [exact El |]. split; [exact Hlen |].
    unfold _project_cash_flows. rewrite Hrun. simpl.
    unfold last_item. rewrite El. simpl.
    rewrite fdiv_Ok.
    + simpl. rewrite (fpow_Ok_nonzero _ _ Hr). simpl.
      rewrite fdiv_Ok by now apply Qpower_not_0. reflexivity.
    + intros H0. pose proof (gordon_denominator_pos (wacc s) (terminal_g s)) as Hpos.
      rewrite H0 in Hpos. discriminate.
  - apply last_None in El. rewrite El in Hlen. simpl in Hlen. lia.
Qed.

(** What a returned triple is made of. *)
Lemma _project_cash_flows_inv (flows : list CashFlowRow) (tv pv_tv : Q) :
  _project_cash_flows s = Ok (flows, tv, pv_tv) ->
  exists st last_row,
    project_loop s = Ok st /\ flows = ls_flows st /\
    last flows = Some last_row /\
    tv = nopat last_row * (1 + terminal_g s) * (1 - reinvestment_rate s)
           / gordon_denominator (wacc s) (terminal_g s) /\
    pv_tv = tv / (1 + wacc s) ^ horizon s.
Proof.
  unfold _project_cash_flows. intros H.
  destruct (project_loop s) as [st |] eqn:Hrun; simpl in H; [| discriminate].
  unfold last_item in H.
  destruct (last (ls_flows st)) as [last_row |] eqn:El; simpl in H; [| discriminate].
  unfold fdiv at 1 in H.
  destruct (Qeq_bool (gordon_denominator (wacc s) (terminal_g s)) 0); simpl in H;
    [discriminate |].
  unfold fpow in H.
  destruct (Qeq_bool (1 + wacc s) 0 && (horizon s <? 0)%Z); simpl in H; [discriminate |].
  unfold fdiv in H.
  destruct (Qeq_bool ((1 + wacc s) ^ horizon s) 0); simpl in H; [discriminate |].
  injection H as <- <- <-.
  exists st, last_row. repeat split; try reflexivity; assumption.
Qed.

End Projection.

(** ** Unit coercion *)

Lemma _pct_percent (x d : Q) : 1 < x -> _pct (Some x) d = x / 100.
Proof. intros H. unfold _pct. apply Qltb_lt in H. now rewrite H. Qed.

Lemma _pct_decimal (x d : Q) : x <= 1 -> _pct (Some x) d = x.
Proof. intros H. unfold _pct. apply Qltb_ge in H. now rewrite H. Qed.

Lemma rate_field_supplied (k : string) (o : gmap string Q) (h : Z) (r : Q) :
  k ∈ rate_fields ->
  rate_field k (_scenario_defaults (Some o) h r) = Some (_pct (o !! k) (
    if String.eqb k "growth" then 0.10
    else if String.eqb k "growth_decay" then 0.02
    else if String.eqb k "ebit_margin" then 0.20
    else if String.eqb k "tax_rate" then 0.21
    else if String.eqb k "reinvestment_rate" then 0.35
    else if String.eqb k "terminal_g" then 0.02
    else r)).
Proof.
  unfold rate_fields. rewrite !elem_of_cons, elem_of_nil.
  intros [-> | [-> | [-> | [-> | [-> | [-> | [-> | []]]]]]]]; reflexivity.
Qed.

(** C8 (as amended).  Every rate-like field supplied in a scenario
    override is divided by 100 exactly when it is greater than 1 and kept
    as it is when it is at most 1.  Consequently a rate written as a
    percentage [x] with [1 < x <= 100] and the same rate written as the
    decimal [x / 100] normalise to the same parameter set. *)
Theorem unit_coercion_percent_vs_decimal
    (k : string) (o : gmap string Q) (h : Z) (r x : Q) :
  k ∈ rate_fields ->
  (1 < x -> rate_field k (_scenario_defaults (Some (<[k := x]> o)) h r) = Some (x / 100)) /\
  (x <= 1 -> rate_field k (_scenario_defaults (Some (<[k := x]> o)) h r) = Some x) /\
  (1 < x -> x <= 100 ->
   _scenario_defaults (Some (<[k := x]> o)) h r
     = _scenario_defaults (Some (<[k := x / 100]> o)) h r).
Proof.
  intros Hk. split; [| split].
  - intros Hlo. rewrite rate_field_supplied by exact Hk. rewrite lookup_insert_eq.
    f_equal. now apply _pct_percent.
  - intros Hle. rewrite rate_field_supplied by exact Hk. rewrite lookup_insert_eq.
    f_equal. now apply _pct_decimal.
  - intros Hlo Hhi.
    assert (Hdec : x / 100 <= 1) by (apply Qle_shift_div_r; [reflexivity | lra]).
    revert Hk. unfold rate_fields. rewrite !elem_of_cons, elem_of_nil.
    intros [-> | [-> | [-> | [-> | [-> | [-> | [-> | []]]]]]]];
      unfold _scenario_defaults; simpl;
      rewrite ?lookup_insert_eq, ?lookup_insert_ne by discriminate;
      rewrite !(_pct_percent x) by exact Hlo;
      rewrite !(_pct_decimal (x / 100)) by exact Hdec; reflexivity.
Qed.

Lemma unit_coercion_percent_vs_decimal_witness :
  "growth"%string ∈ rate_fields /\ 1 < 10 /\ 10 <= 100 /\
  growth (_scenario_defaults (Some (<["growth"%string := 10]> ∅)) 5 0.10)
    = growth (_scenario_defaults (Some (<["growth"%string := 10 / 100]> ∅)) 5 0.10).
Proof.
  assert (Hk : "growth"%string ∈ rate_fields) by (unfold rate_fields; apply list_elem_of_here).
  assert (Hlo : 1 < 10) by reflexivity.
  assert (Hhi : 10 <= 100) by (intros H; discriminate H).
  destruct (unit_coercion_percent_vs_decimal "growth" ∅ 5 0.10 10 Hk) as (_ & _ & H).
  split; [exact Hk |]. split; [exact Hlo |]. split; [exact Hhi |].
  now rewrite (H Hlo Hhi).
Defined.

(** C8 as stated fails above 100 percent: [growth=150] normalises to
    [1.5], but the equivalent decimal [growth=1.5] is itself greater than
    1 and normalises to [0.015]. *)
Lemma unit_coercion_fails_above_100_percent :
  let percent_form := _scenario_defaults (Some {[ "growth"%string := 150 ]}) 5 0.10 in
  let decimal_form := _scenario_defaults (Some {[ "growth"%string := 1.5 ]}) 5 0.10 in
  growth percent_form == 1.5 /\ growth decimal_form == 0.015 /\
  ~ growth percent_form == growth decimal_form.
Proof.
  vm_compute. split; [reflexivity |]. split; [reflexivity |]. discriminate.
Qed.

(** ** Growth decay *)

(** The rows of a completed projection compound revenue at [growth_at]:
    this is the sequence of growth values the loop uses. *)
Lemma projection_uses_growth_at (s : ScenarioParameters) (st : LoopState)
    (i : nat) (row : CashFlowRow) :
  project_loop s = Ok st ->
  ls_flows st !! i = Some row ->
  revenue row = revenue_at s i * (1 + growth_at s i).
Proof.
  intros Hrun Hi. apply project_loop_inv in Hrun as (_ & _ & _ & Hrows).
  now apply Hrows in Hi.
Qed.

Lemma next_growth_above (gt d a : Q) :
  gt < a -> next_growth gt d a = py_max gt (a - d).
Proof. intros H. unfold next_growth. apply Qltb_lt in H. now rewrite H. Qed.

Lemma next_growth_not_above (gt d a : Q) :
  a <= gt -> next_growth gt d a = py_min gt (a + d).
Proof. intros H. unfold next_growth. apply Qltb_ge in H. now rewrite H. Qed.

(** C4 (as amended).  When [growth_decay] is not negative, each step of
    the growth sequence of a projection moves toward [terminal_g] without
    crossing it: from above it is [max(terminal_g, g - growth_decay)],
    from below [min(terminal_g, g + growth_decay)], and once equal to
    [terminal_g] it stays there. *)
Theorem growth_moves_toward_terminal (s : ScenarioParameters) (k : nat) :
  0 <= growth_decay s ->
  let gt := terminal_g s in
  let d := growth_decay s in
  let a := growth_at s k in
  let b := growth_at s (Datatypes.S k) in
  (gt < a -> b = py_max gt (a - d) /\ gt <= b /\ b <= a) /\
  (a < gt -> b = py_min gt (a + d) /\ a <= b /\ b <= gt) /\
  (a == gt -> b == gt).
Proof.
  intros Hd gt d a b.
  assert (Hb : b = next_growth gt d a) by reflexivity.
  assert (Hd' : 0 <= d) by exact Hd.
  clearbody b a d gt. subst b.
  split; [| split].
  - intros Ha. rewrite (next_growth_above _ _ _ Ha).
    split; [reflexivity |].
    destruct (py_max_cases gt (a - d)) as [[H ->] | [H ->]]; split; lra.
  - intros Ha. rewrite next_growth_not_above by lra.
    split; [reflexivity |].
    destruct (py_min_cases gt (a + d)) as [[H ->] | [H ->]]; split; lra.
  - intros Ha. rewrite next_growth_not_above by lra.
    destruct (py_min_cases gt (a + d)) as [[H ->] | [H ->]]; lra.
Qed.

Lemma growth_moves_toward_terminal_witness :
  let s := _scenario_defaults None 5 0.10 in
  0 <= growth_decay s /\
  terminal_g s <= growth_at s 1 /\ growth_at s 1 <= growth_at s 0.
Proof.
  intros s.
  assert (Hd : 0 <= growth_decay s) by (intros H; discriminate H).
  split; [exact Hd |].
  destruct (growth_moves_toward_terminal s 0 Hd) as (Habove & _).
  assert (Ha : terminal_g s < growth_at s 0) by reflexivity.
  destruct (Habove Ha) as (_ & H1 & H2). split; [exact H1 | exact H2].
Defined.

(** C4 as stated fails for a negative [growth_decay]: starting above
    [terminal_g], the next growth value is further away from it. *)
Lemma growth_negative_decay_moves_away :
  let s := _scenario_defaults (Some {[ "growth_decay"%string := -0.02 ]}) 5 0.10 in
  terminal_g s == 0.02 /\ growth_at s 0 == 0.10 /\ growth_at s 1 == 0.12 /\
  terminal_g s < growth_at s 0 /\ growth_at s 0 < growth_at s 1.
Proof.
  vm_compute. repeat split; reflexivity.
Qed.

(** ** Discount factors *)

Lemma Qpower_succ_gt (a : Q) (n : Z) : 1 < a -> a ^ n < a ^ (n + 1).
Proof.
  intros Ha. assert (H0 : 0 < a) by lra.
  rewrite Qpower_succ by lra.
  pose proof (Qpower_0_lt a n H0) as Hp.
  set (p := a ^ n) in *. clearbody p. nra.
Qed.

(** C6 (as amended).  In every projected sequence the row at index [i]
    is year [i + 1] and its discount factor is [(1 + wacc)^(-year)].
    For [wacc > -1] every discount factor is strictly positive; for
    [wacc > 0] each year's factor is strictly smaller than the previous
    year's. *)
Theorem discount_factor_shape (s : ScenarioParameters)
    (flows : list CashFlowRow) (tv pv_tv : Q) (i : nat) (row : CashFlowRow) :
  _project_cash_flows s = Ok (flows, tv, pv_tv) ->
  flows !! i = Some row ->
  year row = inject_Z (Z.of_nat i + 1) /\
  discountFactor row == (1 + wacc s) ^ (- (Z.of_nat i + 1)) /\
  (-1 < wacc s -> 0 < discountFactor row) /\
  (0 < wacc s -> forall next, flows !! (Datatypes.S i) = Some next ->
     discountFactor next < discountFactor row).
Proof.
  intros Hrun Hi.
  apply _project_cash_flows_inv in Hrun as (st & last_row & Hloop & -> & _).
  apply project_loop_inv in Hloop as (_ & _ & _ & Hrows).
  destruct (Hrows _ _ Hi) as (Hy & Hdf & _ & Hnz).
  split; [exact Hy |]. split; [| split].
  - rewrite Hdf, Qpower_opp. field. exact Hnz.
  - intros Hr. rewrite Hdf.
    assert (Hp : 0 < (1 + wacc s) ^ (Z.of_nat i + 1)) by (apply Qpower_0_lt; lra).
    apply Qlt_shift_div_l; [exact Hp | lra].
  - intros Hr next Hn. destruct (Hrows _ _ Hn) as (_ & Hdf' & _ & _).
    rewrite Hdf, Hdf'.
    assert (Hp : 0 < (1 + wacc s) ^ (Z.of_nat i + 1)) by (apply Qpower_0_lt; lra).
    assert (Hlt : (1 + wacc s) ^ (Z.of_nat i + 1) < (1 + wacc s) ^ (Z.of_nat i + 1 + 1))
      by (apply Qpower_succ_gt; lra).
    replace (Z.of_nat (Datatypes.S i) + 1)%Z with (Z.of_nat i + 1 + 1)%Z by lia.
    assert (Hq : 0 < (1 + wacc s) ^ (Z.of_nat i + 1 + 1)) by (apply Qpower_0_lt; lra).
    unfold Qdiv. rewrite !Qmult_1_l.
    apply (proj1 (Qinv_lt_contravar _ _ Hp Hq)). exact Hlt.
Qed.

Lemma discount_factor_shape_witness :
  let s := _scenario_defaults None 2 0.10 in
  exists flows tv pv_tv row,
    _project_cash_flows s = Ok (flows, tv, pv_tv) /\ flows !! 0%nat = Some row /\
    year row = 1 /\ discountFactor row == (1 + wacc s) ^ (-1).
Proof.
  intros s.
  destruct (_project_cash_flows s) as [[[flows tv] pv_tv] | e] eqn:Hrun;
    [| vm_compute in Hrun; discriminate Hrun].
  destruct (flows !! 0%nat) as [row |] eqn:Hi.
  - exists flows, tv, pv_tv, row.
    destruct (discount_factor_shape s flows tv pv_tv 0 row Hrun Hi) as (Hy & Hdf & _).
    split; [reflexivity |]. split; [exact Hi |]. split; [exact Hy | exact Hdf].
  - exfalso. vm_compute in Hrun. injection Hrun as <- _ _. discriminate Hi.
Defined.

(** C6 as stated fails for [-1 < wacc < 0]: with [wacc = -0.5] the
    discount factors of years 1 and 2 are 2 and 4, increasing. *)
Lemma discount_factor_increases_for_negative_wacc :
  let s := _scenario_defaults (Some {[ "wacc"%string := -0.5 ]}) 2 0.10 in
  -1 < wacc s /\
  match _project_cash_flows s with
  | Ok (flows, _, _) =>
      match discountFactor <$> flows with
      | [d1; d2] => d1 == 2 /\ d2 == 4 /\ ~ d2 < d1
      | _ => False
      end
  | Raise _ => False
  end.
Proof.
  vm_compute. split; [reflexivity |]. split; [reflexivity |]. split; [reflexivity |].
  discriminate.
Qed.

(** ** Sensitivity grid *)

Lemma inject_Z_rate_pos (w : Z) : (0 <= w)%Z -> 0 < 1 + inject_Z w / 100.
Proof.
  intros Hw. assert (H : 0 <= inject_Z w) by (change (inject_Z 0 <= inject_Z w); now rewrite <- Zle_Qle).
  assert (H' : 0 <= inject_Z w / 100) by (apply Qle_shift_div_l; [reflexivity | lra]).
  lra.
Qed.

(** A cell with a non-negative [w] never raises. *)
Lemma sensitivity_cell_Ok (fcf_next : Q) (last_base : CashFlowRow) (N w : Z)
    (acc : list SensitivityPoint) (g_i : Q) :
  (0 <= w)%Z ->
  sensitivity_cell fcf_next last_base N w acc g_i
    = Ok (acc ++ [cell_point fcf_next (cum_pv last_base) N w g_i]).
Proof.
  intros Hw. pose proof (inject_Z_rate_pos w Hw) as Hpos.
  unfold sensitivity_cell.
  rewrite fdiv_Ok.
  - simpl. rewrite fpow_Ok_nonzero by lra. simpl.
    rewrite fdiv_Ok; [reflexivity |].
    apply Qpower_not_0. lra.
  - pose proof (gordon_denominator_pos (inject_Z w / 100) (g_i / 100)). lra.
Qed.

Lemma wacc_grid_nonneg : Forall (fun w => (0 <= w)%Z) wacc_grid.
Proof. unfold wacc_grid, py_range. apply Forall_seqZ. lia. Qed.

(** The two loops never raise and produce the cells in row-major order. *)
Lemma sensitivity_grid_Ok (fcf_next : Q) (last_base : CashFlowRow) (N : Z) :
  sensitivity_grid fcf_next last_base N
    = Ok (sensitivity_points fcf_next (cum_pv last_base) N).
Proof.
  unfold sensitivity_grid, sensitivity_points.
  rewrite (for_each_append _
             (fun w => map (cell_point fcf_next (cum_pv last_base) N w) terminalG_grid)
             (fun w => (0 <= w)%Z)).
  - rewrite app_nil_l, <- flat_map_concat_map. reflexivity.
  - intros w acc Hw.
    rewrite (for_each_append _
               (fun g_i => [cell_point fcf_next (cum_pv last_base) N w g_i])
               (fun _ => True)).
    + reflexivity.
    + intros g_i acc' _. now apply sensitivity_cell_Ok.
    + now apply Forall_true.
  - apply wacc_grid_nonneg.
Qed.

Lemma sensitivity_points_length (fcf_next cum : Q) (N : Z) :
  length (sensitivity_points fcf_next cum N) = 42%nat.
Proof. reflexivity. Qed.

(** ** The endpoint, step by step *)

Lemma bind_Ok {A B : Type} (m : result A) (k : A -> result B) (b : B) :
  bind m k = Ok b -> exists a, m = Ok a /\ k a = Ok b.
Proof. destruct m as [a | e]; simpl; [eauto | discriminate]. Qed.

Lemma last_item_Ok {A : Type} (xs : list A) (x : A) :
  last_item xs = Ok x <-> last xs = Some x.
Proof.
  unfold last_item. destruct (last xs); split; intros H; try discriminate;
    now inversion H.
Qed.

(** One of the two [if s_x is not None: ... else: ...] blocks of [dcf]. *)
Lemma optional_block_inv (s_opt : option ScenarioParameters) (name : string)
    (synth : Q) (fb fb' : gmap string (list CashFlowRow)) (pv pv' : gmap string Q) :
  match s_opt with
  | Some s_x =>
      let* (x_flows, _, x_pv_tv) := _project_cash_flows s_x in
      let* x_last := last_item x_flows in
      Ok (<[name := x_flows]> fb, <[name := round2 (cum_pv x_last + x_pv_tv)]> pv)
  | None => Ok (fb, <[name := round2 synth]> pv)
  end = Ok (fb', pv') ->
  match s_opt with
  | Some s_x =>
      exists flows ev, projected s_x flows ev /\
        fb' = <[name := flows]> fb /\ pv' = <[name := round2 ev]> pv
  | None => fb' = fb /\ pv' = <[name := round2 synth]> pv
  end.
Proof.
  destruct s_opt as [s_x |]; intros H.
  - apply bind_Ok in H as ([[flows tv] pv_tv] & Hp & H).
    apply bind_Ok in H as (x_last & Hl & H). apply last_item_Ok in Hl.
    injection H as <- <-.
    exists flows, (cum_pv x_last + pv_tv). split; [| split; reflexivity].
    exists tv, pv_tv, x_last. split; [exact Hp |]. split; [exact Hl | reflexivity].
  - injection H as <- <-. split; reflexivity.
Qed.

Lemma dcf_core_inv (req : DcfRequest) (c : Core) :
  dcf_core req = Ok c ->
  exists base_flows last_base,
    projected (base_parameters req) base_flows (c_ev_base c) /\
    last base_flows = Some last_base /\
    c_flows_by c !! "base"%string = Some base_flows /\
    c_pv_by_scenario c !! "base"%string = Some (round2 (c_ev_base c)) /\
    optional_scenario req c "bull" 1.2 (bull (request_scenarios req)) /\
    optional_scenario req c "bear" 0.8 (bear (request_scenarios req)) /\
    dom (c_pv_by_scenario c) = ({[ "base"; "bull"; "bear" ]} : gset string)%string /\
    c_sensitivity c =
      sensitivity_points
        (nopat last_base * (1 + terminal_g (base_parameters req))
           * (1 - reinvestment_rate (base_parameters req)))
        (cum_pv last_base) (request_horizon req) /\
    a_horizon (c_assumptions c) = request_horizon req /\
    a_wacc (c_assumptions c) = round2 (request_wacc req * 100) /\
    a_ticker (c_assumptions c) = req_ticker req.
Proof.
  intros H. unfold dcf_core in H. cbv zeta in H.
  fold (request_scenarios req) (request_horizon req) (request_wacc req) in H.
  apply bind_Ok in H as ([[base_flows base_tv] base_pv_tv] & Hbase & H).
  apply bind_Ok in H as (base_last & Hbl & H). apply last_item_Ok in Hbl.
  apply bind_Ok in H as ([fb1 pv1] & Hbull & H).
  apply bind_Ok in H as ([fb2 pv2] & Hbear & H).
  apply bind_Ok in H as (last_base & Hlb & H).
  rewrite sensitivity_grid_Ok in H.
  apply bind_Ok in H as (sens & Hs & H). injection Hs as <-. injection H as <-.
  apply optional_block_inv in Hbull. apply optional_block_inv in Hbear.
  unfold optional_scenario.
  cbn [c_ev_base c_flows_by c_pv_by_scenario c_sensitivity c_assumptions
    a_horizon a_wacc a_ticker].
  assert (Hproj : projected (base_parameters req) base_flows (cum_pv base_last + base_pv_tv)).
  { exists base_tv, base_pv_tv, base_last. split; [exact Hbase |]. split; [exact Hbl | reflexivity]. }
  destruct (bull (request_scenarios req)) as [o_bull |];
    destruct (bear (request_scenarios req)) as [o_bear |];
    cbn [fmap option_fmap option_map] in Hbull, Hbear;
    [ destruct Hbull as (bull_flows & ev_bull & Hpb & -> & ->);
      destruct Hbear as (bear_flows & ev_bear & Hpr & -> & ->)
    | destruct Hbull as (bull_flows & ev_bull & Hpb & -> & ->);
      destruct Hbear as (-> & ->)
    | destruct Hbull as (-> & ->);
      destruct Hbear as (bear_flows & ev_bear & Hpr & -> & ->)
    | destruct Hbull as (-> & ->);
      destruct Hbear as (-> & ->) ];
    rewrite ?lookup_insert_ne, lookup_insert_eq in Hlb by discriminate;
    cbn [from_option id] in Hlb; apply last_item_Ok in Hlb;
    assert (last_base = base_last) by congruence; subst last_base;
    exists base_flows, base_last;
    (split; [exact Hproj |]);
    (split; [exact Hbl |]);
    (split; [now rewrite ?lookup_insert_ne, lookup_insert_eq by discriminate |]);
    (split; [now rewrite ?lookup_insert_ne, lookup_insert_eq by discriminate |]);
    (split; [| split; [| split; [| split; [reflexivity | repeat split]]]]).
  all: try (rewrite !dom_insert_L, dom_empty_L; set_solver).
  all: try (split; rewrite ?lookup_insert_ne, ?lookup_insert_eq, ?lookup_empty by discriminate;
            reflexivity).
  all: try (eexists _, _; split; [eassumption |];
            split; rewrite ?lookup_insert_ne, ?lookup_insert_eq by discriminate; reflexivity).
Qed.

(** ** Sensitivity cells *)

(** C1 (as amended).  Whenever a valuation returns and its base
    scenario is projected over the request-level horizon (the base
    override has no [horizon] key, or one equal to the clamped request
    horizon), its 42 sensitivity cells are computed from one [fcf_next],
    obtained once from the last base row with the base scenario's
    normalised [terminal_g] and [reinvestment_rate]; a cell's own
    terminal growth enters only the Gordon denominator
    [max(1e-6, w/100 - g_i/100)].  The terminal value is discounted at
    the cell's wacc over the base scenario's horizon years, added to the
    last base row's cumulative present value and rounded to 2 places; the
    base rows are those of the single base projection. *)
Theorem sensitivity_cells_share_base_fcf_next (req : DcfRequest) (c : Core) :
  dcf_core req = Ok c ->
  horizon (base_parameters req) = Z.max 1 (req_horizon req) ->
  exists base_flows base_tv base_pv_tv last_base,
    _project_cash_flows (base_parameters req) = Ok (base_flows, base_tv, base_pv_tv) /\
    c_flows_by c !! "base"%string = Some base_flows /\
    last base_flows = Some last_base /\
    let N := horizon (base_parameters req) in
    let nopat_next := nopat last_base * (1 + terminal_g (base_parameters req)) in
    let fcf_next := nopat_next * (1 - reinvestment_rate (base_parameters req)) in
    length base_flows = Z.to_nat N /\
    c_sensitivity c =
      flat_map
        (fun w =>
           map (fun g_i =>
                  {| sp_wacc := inject_Z w;
                     sp_terminalG := g_i;
                     sp_value :=
                       round2 (cum_pv last_base
                               + fcf_next / py_max 1e-6 (inject_Z w / 100 - g_i / 100)
                                   / (1 + inject_Z w / 100) ^ N) |})
               [0.0; 0.5; 1.0; 1.5; 2.0; 2.5])
        [6; 7; 8; 9; 10; 11; 12]%Z /\
    length (c_sensitivity c) = 42%nat.
Proof.
  intros H Hh. apply dcf_core_inv in H
    as (base_flows & last_base & (tv & pv_tv & l & Hp & _ & _) & Hl & Hfb & _ & _ & _ & _ & Hs & _).
  exists base_flows, tv, pv_tv, last_base.
  split; [exact Hp |]. split; [exact Hfb |]. split; [exact Hl |].
  cbv zeta. split.
  - apply _project_cash_flows_inv in Hp as (st & _ & Hloop & -> & _).
    now apply project_loop_inv in Hloop as (Hlen & _).
  - rewrite Hh, Hs. split; reflexivity.
Qed.

Lemma sensitivity_cells_share_base_fcf_next_witness :
  horizon (base_parameters acme) = Z.max 1 (req_horizon acme) /\
  exists c, dcf_core acme = Ok c /\ length (c_sensitivity c) = 42%nat.
Proof.
  assert (Hh : horizon (base_parameters acme) = Z.max 1 (req_horizon acme)) by reflexivity.
  split; [exact Hh |].
  destruct (dcf_core acme) as [c | e] eqn:Hrun; [| vm_compute in Hrun; discriminate Hrun].
  exists c. split; [reflexivity |].
  destruct (sensitivity_cells_share_base_fcf_next acme c Hrun Hh)
    as (_ & _ & _ & _ & _ & _ & _ & _ & _ & Hlen).
  exact Hlen.
Defined.

(** C1 as stated fails: for the all-defaults request the first cell
    (wacc 6, terminal growth 0.0) is 2220.54, computed with the base
    terminal growth 0.02 in [fcf_next]; recomputing [fcf_next] with the
    cell's growth 0.0 would give 2186.37. *)
Lemma sensitivity_cell_ignores_cell_growth_in_fcf_next :
  match dcf_core acme with
  | Ok c =>
      match c_flows_by c !! "base"%string, c_sensitivity c with
      | Some base_flows, p :: _ =>
          match last base_flows with
          | Some last_base =>
              sp_wacc p == 6 /\ sp_terminalG p == 0 /\ sp_value p == 2220.54 /\
              spec_cell_value last_base (reinvestment_rate (base_parameters acme)) 5 6 0
                == 2186.37 /\
              ~ sp_value p
                == spec_cell_value last_base (reinvestment_rate (base_parameters acme)) 5 6 0
          | None => False
          end
      | _, _ => False
      end
  | Raise _ => False
  end.
Proof.
  vm_compute. repeat split; try reflexivity. intros H; discriminate H.
Qed.

(** With a base override [horizon: 2] under a request horizon of 5 the
    base scenario is projected over 2 years (value 1489.15) while the
    cells are still discounted over 5: the cell at the base wacc and
    terminal growth, (10, 2.0), is 1169.44.  The statement above says
    nothing about such requests. *)
Example sensitivity_horizon_under_base_override :
  match dcf_core {| req_ticker := "ACME"; req_horizon := 5; req_wacc := None;
                    req_scenarios :=
                      Some {| base := {[ "horizon"%string := 2 ]};
                              bull := None; bear := None |} |} with
  | Ok c =>
      length <$> c_flows_by c !! "base"%string = Some 2%nat /\
      match c_pv_by_scenario c !! "base"%string, c_sensitivity c !! 28%nat with
      | Some pv_base, Some p =>
          sp_wacc p == 10 /\ sp_terminalG p == 2 /\
          pv_base == 1489.15 /\ sp_value p == 1169.44
      | _, _ => False
      end
  | Raise _ => False
  end.
Proof. vm_compute. repeat split; reflexivity. Qed.

(** ** Synthesised bull and bear values *)

(** C3 (as amended).  When a valuation returns and the bull (resp. bear)
    override is omitted, [pvByScenario["bull"]] is [round(1.2 * ev_base, 2)]
    (resp. [round(0.8 * ev_base, 2)] for bear), where [ev_base] is the
    base enterprise value before rounding, whose rounding is
    [pvByScenario["base"]]; no rows are recorded for that scenario. *)
Theorem synthesized_from_unrounded_base (req : DcfRequest) (c : Core) :
  dcf_core req = Ok c ->
  (exists base_flows, projected (base_parameters req) base_flows (c_ev_base c)) /\
  c_pv_by_scenario c !! "base"%string = Some (round2 (c_ev_base c)) /\
  (bull (request_scenarios req) = None ->
     c_pv_by_scenario c !! "bull"%string = Some (round2 (c_ev_base c * 1.2)) /\
     c_flows_by c !! "bull"%string = None) /\
  (bear (request_scenarios req) = None ->
     c_pv_by_scenario c !! "bear"%string = Some (round2 (c_ev_base c * 0.8)) /\
     c_flows_by c !! "bear"%string = None).
Proof.
  intros H. apply dcf_core_inv in H
    as (base_flows & last_base & Hp & _ & _ & Hb & Hbull & Hbear & _).
  split; [now exists base_flows |]. split; [exact Hb |].
  split; intros Hnone; [rewrite Hnone in Hbull; exact Hbull | rewrite Hnone in Hbear; exact Hbear].
Qed.

Lemma synthesized_from_unrounded_base_witness :
  exists c, dcf_core acme = Ok c /\
    c_pv_by_scenario c !! "bull"%string = Some (round2 (c_ev_base c * 1.2)).
Proof.
  destruct (dcf_core acme) as [c | e] eqn:Hrun; [| vm_compute in Hrun; discriminate Hrun].
  exists c. split; [reflexivity |].
  destruct (synthesized_from_unrounded_base acme c Hrun) as (_ & _ & Hbull & _).
  destruct (Hbull eq_refl) as (Hpv & _). exact Hpv.
Defined.

(** C3 as stated fails: with [revenue0 = 10] over one year the base value
    is 14.12125, so [pvByScenario] holds base 14.12 and bull 16.95, while
    [round(1.20 * 14.12, 2)] is 16.94. *)
Lemma synthesized_bull_is_not_from_rounded_base :
  match dcf_core acme_small with
  | Ok c =>
      match c_pv_by_scenario c !! "base"%string, c_pv_by_scenario c !! "bull"%string with
      | Some pv_base, Some pv_bull =>
          bull (request_scenarios acme_small) = None /\
          c_ev_base c == 14.12125 /\ pv_base == 14.12 /\ pv_bull == 16.95 /\
          round2 (1.20 * pv_base) == 16.94 /\
          ~ pv_bull == round2 (1.20 * pv_base)
      | _, _ => False
      end
  | Raise _ => False
  end.
Proof.
  vm_compute. repeat split; try reflexivity. intros H; discriminate H.
Qed.

(** ** The Gordon denominator floor *)






(** On the fixed grid itself the floor is never reached: the smallest
    gap is [0.06 - 0.025]. *)
Lemma grid_denominators_above_floor :
  Forall
    (fun w =>
       Forall
         (fun g_i =>
            1e-6 < inject_Z w / 100 - g_i / 100 /\
            gordon_denominator (inject_Z w / 100) (g_i / 100)
              = inject_Z w / 100 - g_i / 100)
         terminalG_grid)
    wacc_grid.
Proof.
  vm_compute. repeat constructor.
Qed.

(** ** Keys of [pvByScenario] *)

Lemma dcf_Ok_inv (env : Env) (req : DcfRequest) (resp : DcfResponse) :
  dcf env req = Ok resp ->
  exists c, dcf_core req = Ok c /\
    assumptions resp = c_assumptions c /\
    pvByScenario resp = c_pv_by_scenario c /\
    sensitivity resp = c_sensitivity c /\
    files resp = export_files env (c_assumptions c) (c_pv_by_scenario c)
                   (c_sensitivity c) (c_flows_by c).
Proof.
  unfold dcf. intros H. apply bind_Ok in H as (c & Hc & H). injection H as <-.
  exists c. repeat split; try reflexivity. exact Hc.
Qed.

(** C10.  Whenever the endpoint returns, the keys of [pvByScenario] are
    exactly base, bull and bear. *)
Theorem pv_by_scenario_has_three_keys (env : Env) (req : DcfRequest) (resp : DcfResponse) :
  dcf env req = Ok resp ->
  dom (pvByScenario resp) = ({[ "base"; "bull"; "bear" ]} : gset string)%string.
Proof.
  intros H. apply dcf_Ok_inv in H as (c & Hc & _ & -> & _).
  apply dcf_core_inv in Hc as (_ & _ & _ & _ & _ & _ & _ & _ & Hdom & _).
  exact Hdom.
Qed.

Lemma pv_by_scenario_has_three_keys_witness :
  exists resp, dcf env0 acme = Ok resp /\
    dom (pvByScenario resp) = ({[ "base"; "bull"; "bear" ]} : gset string)%string.
Proof.
  destruct (dcf env0 acme) as [resp | e] eqn:Hrun; [| vm_compute in Hrun; discriminate Hrun].
  exists resp. split; [reflexivity |].
  exact (pv_by_scenario_has_three_keys env0 acme resp Hrun).
Defined.

(** ** The clock and the file system *)

(** [files] depends on the environment: a later clock gives another
    directory, and a failing export gives no file at all. *)
Example files_depend_on_environment :
  let later := {| now_ms := 1700000000001; HAS_OPENPYXL := true;
                  makedirs_ok := true; save_ok := true |} in
  let broken := {| now_ms := 1700000000000; HAS_OPENPYXL := true;
                   makedirs_ok := true; save_ok := false |} in
  match dcf env0 acme, dcf later acme, dcf broken acme with
  | Ok r0, Ok r1, Ok r2 =>
      files r0 = ["/tmp/madlab-dcf-1700000000000/dcf.xlsx"%string] /\
      files r1 = ["/tmp/madlab-dcf-1700000000001/dcf.xlsx"%string] /\
      files r2 = []
  | _, _, _ => False
  end.
Proof. vm_compute. repeat split; reflexivity. Qed.

(** ** Exceptions *)

(** A projection returns exactly when it has at least one year and
    [1 + wacc] is nonzero. *)
Lemma _project_cash_flows_no_year (s : ScenarioParameters) :
  (horizon s < 1)%Z -> _project_cash_flows s = Raise IndexError.
Proof.
  intros HN. unfold _project_cash_flows, project_loop, py_range.
  rewrite seqZ_nil by lia. reflexivity.
Qed.

Lemma _project_cash_flows_zero_base (s : ScenarioParameters) :
  (1 <= horizon s)%Z -> 1 + wacc s == 0 ->
  _project_cash_flows s = Raise ZeroDivisionError.
Proof.
  intros HN Hr. unfold _project_cash_flows, project_loop, py_range.
  rewrite seqZ_cons by lia. cbn [for_each]. unfold year_body.
  rewrite fpow_Ok_nonneg by lia. cbn [bind].
  rewrite fdiv_zero; [reflexivity |].
  rewrite Hr. apply Qpower_0. discriminate.
Qed.

Lemma projectable_projected (s : ScenarioParameters) :
  projectable s -> exists flows ev, projected s flows ev.
Proof.
  intros [HN Hr]. destruct (_project_cash_flows_Ok s HN Hr) as (flows & l & Hl & _ & Hrun).
  eexists flows, _, _, _, l. split; [exact Hrun |]. split; [exact Hl | reflexivity].
Qed.

(** In exact arithmetic the endpoint's core returns as soon as every
    scenario it projects is projectable (overflow of [**] apart, which is
    not modelled). *)
Theorem dcf_core_returns (req : DcfRequest) :
  projectable (base_parameters req) ->
  (forall o, bull (request_scenarios req) = Some o -> projectable (override_parameters req o)) ->
  (forall o, bear (request_scenarios req) = Some o -> projectable (override_parameters req o)) ->
  exists c, dcf_core req = Ok c.
Proof.
  intros Hbase Hbull Hbear.
  apply projectable_projected in Hbase as (bf & bev & btv & bpv & bl & Hb & Hbl & _).
  unfold dcf_core. cbv zeta.
  fold (request_scenarios req) (request_horizon req) (request_wacc req).
  fold (override_parameters req (base (request_scenarios req))).
  fold (base_parameters req). rewrite Hb. cbn [bind].
  apply last_item_Ok in Hbl as Hbl'. rewrite Hbl'. cbn [bind].
  destruct (bull (request_scenarios req)) as [o_bull |];
    destruct (bear (request_scenarios req)) as [o_bear |];
    cbn [fmap option_fmap option_map].
  all: try (destruct (projectable_projected _ (Hbull o_bull eq_refl))
              as (uf & uev & utv & upv & ul & Hu & Hul & _);
            fold (override_parameters req o_bull); rewrite Hu; cbn [bind];
            apply last_item_Ok in Hul; rewrite Hul; cbn [bind]).
  all: try (destruct (projectable_projected _ (Hbear o_bear eq_refl))
              as (rf & rev' & rtv & rpv & rl & Hr & Hrl & _);
            fold (override_parameters req o_bear); rewrite Hr; cbn [bind];
            apply last_item_Ok in Hrl; rewrite Hrl; cbn [bind]).
  all: cbn [bind]; rewrite ?lookup_insert_ne, lookup_insert_eq by discriminate;
    cbn [from_option id]; rewrite Hbl'; cbn [bind];
    rewrite sensitivity_grid_Ok; cbn [bind]; eexists; reflexivity.
Qed.

(** Without a scenario-level [horizon] key the projected horizon is the
    clamped request horizon, which is at least 1. *)
Lemma horizon_without_override (req : DcfRequest) (o : gmap string Q) :
  o !! "horizon"%string = None ->
  horizon (override_parameters req o) = Z.max 1 (req_horizon req) /\
  (1 <= horizon (override_parameters req o))%Z.
Proof.
  intros Ho. unfold override_parameters, _scenario_defaults. simpl.
  rewrite Ho. simpl. unfold request_horizon. split; [reflexivity | lia].
Qed.

(** With a scenario-level [horizon] key the value is taken as it is. *)
Lemma horizon_with_override (req : DcfRequest) (o : gmap string Q) (h : Q) :
  o !! "horizon"%string = Some h ->
  horizon (override_parameters req o) = py_int h.
Proof.
  intros Ho. unfold override_parameters, _scenario_defaults. simpl.
  now rewrite Ho.
Qed.

(** A request-level horizon of 0 is clamped: the call returns one row. *)
Example request_horizon_0_is_clamped :
  match dcf_core acme_horizon_0 with
  | Ok c =>
      a_horizon (c_assumptions c) = 1%Z /\
      length <$> (c_flows_by c !! "base"%string) = Some 1%nat
  | Raise _ => False
  end.
Proof. vm_compute. split; reflexivity. Qed.

(** A base override with [horizon <= 0] always ends in [IndexError]. *)
Lemma base_horizon_override_raises (env : Env) (req : DcfRequest) (h : Q) :
  base (request_scenarios req) !! "horizon"%string = Some h ->
  (py_int h <= 0)%Z ->
  dcf env req = Raise IndexError.
Proof.
  intros Ho Hh. unfold dcf, dcf_core. cbv zeta.
  fold (request_scenarios req) (request_horizon req) (request_wacc req).
  fold (override_parameters req (base (request_scenarios req))).
  rewrite _project_cash_flows_no_year; [reflexivity |].
  rewrite (horizon_with_override _ _ _ Ho). lia.
Qed.

(** C7: the scenario-level horizon is not clamped.  A base override
    [horizon: 0] leaves the projection loop without iterations, and
    [flows[-1]] raises [IndexError] instead of the request completing with
    a horizon of 1. *)
Theorem scenario_horizon_0_raises_IndexError :
  horizon (base_parameters acme_base_horizon_0) = 0%Z /\
  _project_cash_flows (base_parameters acme_base_horizon_0) = Raise IndexError /\
  dcf env0 acme_base_horizon_0 = Raise IndexError.
Proof. vm_compute. repeat split; reflexivity. Qed.

(** C2: finite inputs on which the endpoint raises.  With [wacc = -1]
    the discount factor of year 1 is [1.0 / 0.0 ** 1], a
    [ZeroDivisionError]; with a base override [horizon: 0] the call ends
    in [IndexError]. *)
Theorem finite_inputs_that_raise :
  request_wacc acme_wacc_minus_1 == -1 /\
  dcf env0 acme_wacc_minus_1 = Raise ZeroDivisionError /\
  dcf env0 acme_base_horizon_0 = Raise IndexError.
Proof. vm_compute. repeat split; reflexivity. Qed.

(** * Further properties of the code *)

(** ** The rows in closed form *)

Section Rows.

Variable s : ScenarioParameters.

Lemma year_body_rows (k : nat) (st st' : LoopState) :
  loop_rows_inv s k st ->
  year_body s st (1 + Z.of_nat k) = Ok st' ->
  loop_rows_inv s (Datatypes.S k) st'.
Proof.
  intros (Hf & Hrev & Hg & Hpv) Hbody. unfold year_body in Hbody.
  apply bind_Ok in Hbody as (p & Hp & Hbody).
  apply bind_Ok in Hbody as (df & Hdf & Hbody).
  unfold fpow in Hp. destruct (Qeq_bool (1 + wacc s) 0 && (1 + Z.of_nat k <? 0)%Z);
    [discriminate |]. injection Hp as <-.
  unfold fdiv in Hdf. destruct (Qeq_bool ((1 + wacc s) ^ (1 + Z.of_nat k)) 0);
    [discriminate |]. injection Hdf as <-.
  injection Hbody as <-. unfold loop_rows_inv. cbn [ls_flows ls_rev ls_g ls_pv_sum].
  rewrite Hf, Hrev, Hg, Hpv, seq_S, map_app.
  split; [reflexivity |]. split; [reflexivity |]. split; reflexivity.
Qed.

(** The rows of a completed loop are exactly [row_at 0 .. row_at (N-1)]. *)
Lemma project_loop_rows (st : LoopState) :
  project_loop s = Ok st ->
  ls_flows st = map (row_at s) (seq 0 (Z.to_nat (horizon s))).
Proof.
  intros Hrun. unfold project_loop, py_range in Hrun.
  apply (for_each_invariant (loop_rows_inv s)) in Hrun.
  - rewrite length_seqZ in Hrun. destruct Hrun as (Hf & _).
    now replace (horizon s + 1 - 1)%Z with (horizon s) in Hf by lia.
  - repeat split.
  - intros k x st1 st2 Hk HI Hb. apply lookup_seqZ in Hk as [-> _].
    now apply (year_body_rows k st1 st2).
Qed.

Lemma _project_cash_flows_rows (flows : list CashFlowRow) (tv pv_tv : Q) :
  _project_cash_flows s = Ok (flows, tv, pv_tv) ->
  flows = map (row_at s) (seq 0 (Z.to_nat (horizon s))) /\
  (1 <= horizon s)%Z /\ ~ 1 + wacc s == 0.
Proof.
  intros Hrun.
  destruct (Z_lt_le_dec (horizon s) 1) as [Hlt | Hge].
  { rewrite _project_cash_flows_no_year in Hrun by exact Hlt. discriminate. }
  destruct (Qeq_dec (1 + wacc s) 0) as [Hz | Hnz].
  { rewrite _project_cash_flows_zero_base in Hrun by assumption. discriminate. }
  apply _project_cash_flows_inv in Hrun as (st & l & Hloop & -> & _).
  split; [now apply project_loop_rows |]. split; assumption.
Qed.

Lemma lookup_rows (i : nat) (row : CashFlowRow) :
  map (row_at s) (seq 0 (Z.to_nat (horizon s))) !! i = Some row ->
  row = row_at s i /\ (Z.of_nat i < horizon s)%Z.
Proof.
  intros Hi. rewrite list_lookup_fmap in Hi.
  destruct (seq 0 (Z.to_nat (horizon s)) !! i) as [j |] eqn:Hj; [| discriminate].
  apply lookup_seq in Hj as [-> Hlt]. injection Hi as <-.
  split; [reflexivity | lia].
Qed.

End Rows.

(** ** When a projection returns *)

Lemma _project_cash_flows_cases (s : ScenarioParameters) :
  ((horizon s < 1)%Z /\ _project_cash_flows s = Raise IndexError) \/
  ((1 <= horizon s)%Z /\ 1 + wacc s == 0 /\
   _project_cash_flows s = Raise ZeroDivisionError) \/
  ((1 <= horizon s)%Z /\ ~ 1 + wacc s == 0 /\
   exists out, _project_cash_flows s = Ok out).
Proof.
  destruct (Z_lt_le_dec (horizon s) 1) as [Hlt | Hge].
  { left. split; [exact Hlt | now apply _project_cash_flows_no_year]. }
  destruct (Qeq_dec (1 + wacc s) 0) as [Hz | Hnz].
  { right. left. split; [exact Hge |]. split; [exact Hz |].
    now apply _project_cash_flows_zero_base. }
  right. right. split; [exact Hge |]. split; [exact Hnz |].
  destruct (_project_cash_flows_Ok s Hge Hnz) as (flows & l & _ & _ & Hrun).
  eexists. exact Hrun.
Qed.

Lemma projected_projectable (s : ScenarioParameters) (flows : list CashFlowRow) (ev : Q) :
  projected s flows ev -> projectable s.
Proof.
  intros (tv & pv_tv & l & Hrun & _).
  apply _project_cash_flows_rows in Hrun as (_ & HN & Hr). now split.
Qed.

(** X1.  [_project_cash_flows] raises [IndexError] whenever the horizon
    is below 1 (whatever the wacc) and only then, and raises
    [ZeroDivisionError] whenever the horizon is at least 1 and
    [1 + wacc] is zero; so a call that returns had a horizon of at least
    1 and [1 + wacc] nonzero. *)
Theorem _project_cash_flows_outcome (s : ScenarioParameters) :
  ((horizon s < 1)%Z -> _project_cash_flows s = Raise IndexError) /\
  ((1 <= horizon s)%Z -> 1 + wacc s == 0 ->
     _project_cash_flows s = Raise ZeroDivisionError) /\
  (forall out, _project_cash_flows s = Ok out ->
     (1 <= horizon s)%Z /\ ~ 1 + wacc s == 0) /\
  (_project_cash_flows s = Raise IndexError -> (horizon s < 1)%Z).
Proof.
  split; [apply _project_cash_flows_no_year |].
  split; [apply _project_cash_flows_zero_base |].
  destruct (_project_cash_flows_cases s)
    as [(HN & Hrun) | [(HN & Hr & Hrun) | (HN & Hr & out' & Hrun)]];
    rewrite Hrun; split.
  - intros out H. discriminate H.
  - intros _. exact HN.
  - intros out H. discriminate H.
  - intros H. discriminate H.
  - intros out _. split; assumption.
  - intros H. discriminate H.
Qed.

Lemma _project_cash_flows_outcome_witness :
  let s := _scenario_defaults (Some {[ "horizon"%string := 0; "wacc"%string := -1 ]}) 5 0.10 in
  (horizon s < 1)%Z /\ _project_cash_flows s = Raise IndexError.
Proof.
  intros s. assert (HN : (horizon s < 1)%Z) by reflexivity.
  split; [exact HN |].
  destruct (_project_cash_flows_outcome s) as (H & _). exact (H HN).
Defined.

(** X2.  Whatever the clock and the file system do, the endpoint returns
    only if the base scenario and every supplied bull or bear scenario
    has a horizon of at least 1 and [1 + wacc] nonzero: one scenario
    without them among those projected makes the whole request fail. *)
Theorem dcf_returns_only_if_scenarios_projectable
    (env : Env) (req : DcfRequest) (resp : DcfResponse) :
  dcf env req = Ok resp ->
  ((1 <= horizon (base_parameters req))%Z /\ ~ 1 + wacc (base_parameters req) == 0) /\
  (forall o, bull (request_scenarios req) = Some o ->
     (1 <= horizon (override_parameters req o))%Z /\
     ~ 1 + wacc (override_parameters req o) == 0) /\
  (forall o, bear (request_scenarios req) = Some o ->
     (1 <= horizon (override_parameters req o))%Z /\
     ~ 1 + wacc (override_parameters req o) == 0).
Proof.
  intros H. apply dcf_Ok_inv in H as (c & Hc & _).
  apply dcf_core_inv in Hc as (bf & lb & Hp & _ & _ & _ & Hbull & Hbear & _).
  split; [now apply projected_projectable in Hp |].
  unfold optional_scenario in Hbull, Hbear.
  split; intros o Ho.
  - rewrite Ho in Hbull. destruct Hbull as (f & ev & Hpo & _).
    now apply projected_projectable in Hpo.
  - rewrite Ho in Hbear. destruct Hbear as (f & ev & Hpo & _).
    now apply projected_projectable in Hpo.
Qed.

Lemma dcf_returns_only_if_scenarios_projectable_witness :
  exists resp, dcf env0 acme = Ok resp /\
    (1 <= horizon (base_parameters acme))%Z /\ ~ 1 + wacc (base_parameters acme) == 0.
Proof.
  destruct (dcf env0 acme) as [resp | e] eqn:Hrun; [| vm_compute in Hrun; discriminate Hrun].
  exists resp. split; [reflexivity |].
  destruct (dcf_returns_only_if_scenarios_projectable env0 acme resp Hrun) as (H & _).
  exact H.
Defined.

(** ** Shape of the rows *)

Lemma projection_row_count (s : ScenarioParameters)
    (flows : list CashFlowRow) (tv pv_tv : Q) :
  _project_cash_flows s = Ok (flows, tv, pv_tv) ->
  length flows = Z.to_nat (horizon s) /\ (1 <= horizon s)%Z.
Proof.
  intros Hrun. apply _project_cash_flows_rows in Hrun as (-> & HN & _).
  now rewrite length_map, length_seq.
Qed.

(** X3.  A returned projection has exactly [horizon] rows, at least one,
    and their [year] fields are 1, 2, ..., [horizon] in this order. *)
Theorem rows_are_years_1_to_horizon (s : ScenarioParameters)
    (flows : list CashFlowRow) (tv pv_tv : Q) :
  _project_cash_flows s = Ok (flows, tv, pv_tv) ->
  length flows = Z.to_nat (horizon s) /\
  (1 <= length flows)%nat /\
  year <$> flows = inject_Z <$> seqZ 1 (horizon s).
Proof.
  intros Hrun. apply _project_cash_flows_rows in Hrun as (-> & HN & _).
  rewrite length_map, length_seq. split; [reflexivity |]. split; [lia |].
  unfold seqZ. rewrite <- !list_fmap_compose.
  apply list_fmap_ext. intros i j _. cbn. now rewrite Z.add_comm.
Qed.

Lemma rows_are_years_1_to_horizon_witness :
  exists flows tv pv_tv,
    _project_cash_flows (_scenario_defaults None 3 0.10) = Ok (flows, tv, pv_tv) /\
    year <$> flows = [inject_Z 1; inject_Z 2; inject_Z 3].
Proof.
  destruct (_project_cash_flows (_scenario_defaults None 3 0.10))
    as [[[flows tv] pv_tv] | e] eqn:Hrun; [| vm_compute in Hrun; discriminate Hrun].
  exists flows, tv, pv_tv. split; [reflexivity |].
  destruct (rows_are_years_1_to_horizon _ flows tv pv_tv Hrun) as (_ & _ & Hy).
  exact Hy.
Defined.

(** X4.  Every row of a returned projection is internally consistent:
    EBIT is revenue times the margin, NOPAT is EBIT after tax,
    reinvestment is [max(0, nopat * reinvestment_rate)] and so never
    negative, free cash flow is NOPAT minus reinvestment and so never
    above NOPAT, and [pv_fcf] is the free cash flow times the discount
    factor.  With a non-negative NOPAT and a reinvestment rate of at most
    1 the free cash flow is not negative. *)
Theorem row_accounting_identities (s : ScenarioParameters)
    (flows : list CashFlowRow) (tv pv_tv : Q) (i : nat) (row : CashFlowRow) :
  _project_cash_flows s = Ok (flows, tv, pv_tv) ->
  flows !! i = Some row ->
  ebit row = revenue row * ebit_margin s /\
  nopat row = ebit row * (1 - tax_rate s) /\
  reinvestment row = py_max 0 (nopat row * reinvestment_rate s) /\
  0 <= reinvestment row /\
  fcf row = nopat row - reinvestment row /\
  fcf row <= nopat row /\
  pv_fcf row = fcf row * discountFactor row /\
  (0 <= nopat row -> reinvestment_rate s <= 1 -> 0 <= fcf row).
Proof.
  intros Hrun Hi. apply _project_cash_flows_rows in Hrun as (-> & _ & _).
  apply lookup_rows in Hi as (-> & _). cbn [ebit revenue nopat reinvestment fcf pv_fcf
    discountFactor row_at]. unfold fcf_at.
  set (n := nopat_at s i). set (rr := reinvestment_rate s).
  assert (Hre : 0 <= py_max 0 (n * rr)).
  { destruct (py_max_cases 0 (n * rr)) as [[H ->] | [H ->]]; lra. }
  repeat split; try reflexivity; try lra.
  intros Hn Hrr. destruct (py_max_cases 0 (n * rr)) as [[H ->] | [H ->]]; [nra | lra].
Qed.

Lemma row_accounting_identities_witness :
  exists flows tv pv_tv row,
    _project_cash_flows (_scenario_defaults None 2 0.10) = Ok (flows, tv, pv_tv) /\
    flows !! 1%nat = Some row /\
    fcf row = nopat row - reinvestment row /\ 0 <= reinvestment row.
Proof.
  destruct (_project_cash_flows (_scenario_defaults None 2 0.10))
    as [[[flows tv] pv_tv] | e] eqn:Hrun; [| vm_compute in Hrun; discriminate Hrun].
  destruct (flows !! 1%nat) as [row |] eqn:Hi.
  - exists flows, tv, pv_tv, row. split; [reflexivity |]. split; [exact Hi |].
    destruct (row_accounting_identities _ flows tv pv_tv 1 row Hrun Hi)
      as (_ & _ & _ & Hre & Hf & _).
    split; [exact Hf | exact Hre].
  - exfalso. vm_compute in Hrun. injection Hrun as <- _ _. discriminate Hi.
Defined.

(** ** Cumulative present value *)

Lemma Qsum_snoc (xs : list Q) (x : Q) : Qsum (xs ++ [x]) = Qsum xs + x.
Proof. unfold Qsum. now rewrite fold_left_app. Qed.

Lemma Qsum_rows (s : ScenarioParameters) (k : nat) :
  Qsum (pv_fcf <$> map (row_at s) (seq 0 k)) = cum_pv_at s k.
Proof.
  induction k as [| k IH]; [reflexivity |].
  rewrite seq_S, map_app, fmap_app. cbn [map fmap list_fmap].
  now rewrite Qsum_snoc, IH.
Qed.

Lemma take_rows (s : ScenarioParameters) (n i : nat) :
  (i <= n)%nat -> take i (map (row_at s) (seq 0 n)) = map (row_at s) (seq 0 i).
Proof.
  intros Hi. replace n with (i + (n - i))%nat by lia.
  rewrite seq_app, map_app, take_app_length'; [reflexivity |].
  now rewrite length_map, length_seq.
Qed.

(** X5.  In a returned projection the [cum_pv] of each row is the sum,
    from year 1 up to that row's year, of the [pv_fcf] fields, added left
    to right starting from 0. *)
Theorem cum_pv_is_running_sum (s : ScenarioParameters)
    (flows : list CashFlowRow) (tv pv_tv : Q) (i : nat) (row : CashFlowRow) :
  _project_cash_flows s = Ok (flows, tv, pv_tv) ->
  flows !! i = Some row ->
  cum_pv row = Qsum (pv_fcf <$> take (Datatypes.S i) flows).
Proof.
  intros Hrun Hi. apply _project_cash_flows_rows in Hrun as (-> & _ & _).
  apply lookup_rows in Hi as (-> & Hlt).
  rewrite take_rows by lia. now rewrite Qsum_rows.
Qed.

Lemma cum_pv_is_running_sum_witness :
  exists flows tv pv_tv row,
    _project_cash_flows (_scenario_defaults None 2 0.10) = Ok (flows, tv, pv_tv) /\
    flows !! 1%nat = Some row /\
    cum_pv row = Qsum (pv_fcf <$> take 2 flows).
Proof.
  destruct (_project_cash_flows (_scenario_defaults None 2 0.10))
    as [[[flows tv] pv_tv] | e] eqn:Hrun; [| vm_compute in Hrun; discriminate Hrun].
  destruct (flows !! 1%nat) as [row |] eqn:Hi.
  - exists flows, tv, pv_tv, row. split; [reflexivity |]. split; [exact Hi |].
    exact (cum_pv_is_running_sum _ flows tv pv_tv 1 row Hrun Hi).
  - exfalso. vm_compute in Hrun. injection Hrun as <- _ _. discriminate Hi.
Defined.

Lemma discount_at_pos (s : ScenarioParameters) (i : nat) :
  -1 < wacc s -> 0 < discount_at s i.
Proof.
  intros Hr. unfold discount_at.
  assert (Hp : 0 < (1 + wacc s) ^ (1 + Z.of_nat i)) by (apply Qpower_0_lt; lra).
  apply Qlt_shift_div_l; [exact Hp | lra].
Qed.

(** X6.  In a returned projection with [wacc > -1], from one row to the
    next [cum_pv] does not decrease when the later year's free cash flow
    is not negative, and does not increase when it is not positive. *)
Theorem cum_pv_follows_sign_of_fcf (s : ScenarioParameters)
    (flows : list CashFlowRow) (tv pv_tv : Q) (i : nat) (row next : CashFlowRow) :
  _project_cash_flows s = Ok (flows, tv, pv_tv) ->
  -1 < wacc s ->
  flows !! i = Some row ->
  flows !! Datatypes.S i = Some next ->
  cum_pv next = cum_pv row + pv_fcf next /\
  (0 <= fcf next -> cum_pv row <= cum_pv next) /\
  (fcf next <= 0 -> cum_pv next <= cum_pv row).
Proof.
  intros Hrun Hr Hi Hn. apply _project_cash_flows_rows in Hrun as (-> & _ & _).
  apply lookup_rows in Hi as (-> & _). apply lookup_rows in Hn as (-> & _).
  cbn [cum_pv pv_fcf fcf row_at cum_pv_at].
  pose proof (discount_at_pos s (Datatypes.S i) Hr) as Hd.
  set (c := cum_pv_at s i + fcf_at s i * discount_at s i).
  set (f := fcf_at s (Datatypes.S i)) in *. set (d := discount_at s (Datatypes.S i)) in *.
  clearbody c f d. split; [reflexivity |]. split; intros Hf; nra.
Qed.

Lemma cum_pv_follows_sign_of_fcf_witness :
  exists flows tv pv_tv row next,
    _project_cash_flows (_scenario_defaults None 2 0.10) = Ok (flows, tv, pv_tv) /\
    flows !! 0%nat = Some row /\ flows !! 1%nat = Some next /\
    cum_pv next = cum_pv row + pv_fcf next.
Proof.
  destruct (_project_cash_flows (_scenario_defaults None 2 0.10))
    as [[[flows tv] pv_tv] | e] eqn:Hrun; [| vm_compute in Hrun; discriminate Hrun].
  assert (Hr : -1 < wacc (_scenario_defaults None 2 0.10)) by reflexivity.
  destruct (flows !! 0%nat) as [row |] eqn:Hi;
    [| exfalso; vm_compute in Hrun; injection Hrun as <- _ _; discriminate Hi].
  destruct (flows !! 1%nat) as [next |] eqn:Hn;
    [| exfalso; vm_compute in Hrun; injection Hrun as <- _ _; discriminate Hn].
  exists flows, tv, pv_tv, row, next.
  split; [reflexivity |]. split; [exact Hi |]. split; [exact Hn |].
  destruct (cum_pv_follows_sign_of_fcf _ flows tv pv_tv 0 row next Hrun Hr Hi Hn)
    as (H & _).
  exact H.
Defined.

(** ** Growth decay in closed form *)

Lemma growth_at_succ (s : ScenarioParameters) (k : nat) :
  growth_at s (Datatypes.S k)
    = next_growth (terminal_g s) (growth_decay s) (growth_at s k).
Proof. reflexivity. Qed.

Lemma inject_Z_succ (k : nat) :
  inject_Z (Z.of_nat (Datatypes.S k)) == inject_Z (Z.of_nat k) + 1.
Proof. now rewrite Nat2Z.inj_succ, <- Z.add_1_r, inject_Z_plus. Qed.

Lemma growth_at_from_above (s : ScenarioParameters) (k : nat) :
  0 <= growth_decay s -> terminal_g s <= growth s ->
  growth_at s k
    == py_max (terminal_g s) (growth s - inject_Z (Z.of_nat k) * growth_decay s).
Proof.
  intros Hd Hg. induction k as [| k IH].
  - change (growth_at s 0) with (growth s). change (inject_Z (Z.of_nat 0)) with 0.
    destruct (py_max_cases (terminal_g s) (growth s - 0 * growth_decay s))
      as [[H ->] | [H ->]]; lra.
  - rewrite growth_at_succ. pose proof (inject_Z_succ k) as HS.
    set (K := inject_Z (Z.of_nat k)) in *.
    set (K' := inject_Z (Z.of_nat (Datatypes.S k))) in *.
    set (a := growth_at s k) in *. set (gt := terminal_g s) in *.
    set (d := growth_decay s) in *. set (g0 := growth s) in *.
    assert (HK : K' * d == K * d + d) by (rewrite HS; ring).
    set (P := K * d) in *. set (P' := K' * d) in *.
    clearbody a gt d g0 P P'. clear HS K K'.
    destruct (Qlt_le_dec gt a) as [Ha | Ha].
    + rewrite (next_growth_above _ _ _ Ha).
      destruct (py_max_cases gt (g0 - P)) as [[H1 E1] | [H1 E1]]; rewrite E1 in IH;
        destruct (py_max_cases gt (a - d)) as [[H2 ->] | [H2 ->]];
        destruct (py_max_cases gt (g0 - P')) as [[H3 ->] | [H3 ->]]; lra.
    + rewrite (next_growth_not_above _ _ _ Ha).
      destruct (py_max_cases gt (g0 - P)) as [[H1 E1] | [H1 E1]]; rewrite E1 in IH;
        destruct (py_min_cases gt (a + d)) as [[H2 ->] | [H2 ->]];
        destruct (py_max_cases gt (g0 - P')) as [[H3 ->] | [H3 ->]]; lra.
Qed.

Lemma growth_at_from_below (s : ScenarioParameters) (k : nat) :
  0 <= growth_decay s -> growth s <= terminal_g s ->
  growth_at s k
    == py_min (terminal_g s) (growth s + inject_Z (Z.of_nat k) * growth_decay s).
Proof.
  intros Hd Hg. induction k as [| k IH].
  - change (growth_at s 0) with (growth s). change (inject_Z (Z.of_nat 0)) with 0.
    destruct (py_min_cases (terminal_g s) (growth s + 0 * growth_decay s))
      as [[H ->] | [H ->]]; lra.
  - rewrite growth_at_succ. pose proof (inject_Z_succ k) as HS.
    set (K := inject_Z (Z.of_nat k)) in *.
    set (K' := inject_Z (Z.of_nat (Datatypes.S k))) in *.
    set (a := growth_at s k) in *. set (gt := terminal_g s) in *.
    set (d := growth_decay s) in *. set (g0 := growth s) in *.
    assert (HK : K' * d == K * d + d) by (rewrite HS; ring).
    set (P := K * d) in *. set (P' := K' * d) in *.
    clearbody a gt d g0 P P'. clear HS K K'.
    destruct (Qlt_le_dec gt a) as [Ha | Ha].
    + rewrite (next_growth_above _ _ _ Ha).
      destruct (py_min_cases gt (g0 + P)) as [[H1 E1] | [H1 E1]]; rewrite E1 in IH;
        destruct (py_max_cases gt (a - d)) as [[H2 ->] | [H2 ->]];
        destruct (py_min_cases gt (g0 + P')) as [[H3 ->] | [H3 ->]]; lra.
    + rewrite (next_growth_not_above _ _ _ Ha).
      destruct (py_min_cases gt (g0 + P)) as [[H1 E1] | [H1 E1]]; rewrite E1 in IH;
        destruct (py_min_cases gt (a + d)) as [[H2 ->] | [H2 ->]];
        destruct (py_min_cases gt (g0 + P')) as [[H3 ->] | [H3 ->]]; lra.
Qed.

(** X7.  With a non-negative [growth_decay], the growth rate in force
    after [k] decay steps is [max(terminal_g, growth - k * growth_decay)]
    when the start value is at or above [terminal_g] and
    [min(terminal_g, growth + k * growth_decay)] when it is at or below;
    so once [k * growth_decay] covers the initial gap the growth rate is
    [terminal_g] and stays there. *)
Theorem growth_closed_form (s : ScenarioParameters) (k : nat) :
  0 <= growth_decay s ->
  let kd := inject_Z (Z.of_nat k) * growth_decay s in
  (terminal_g s <= growth s ->
     growth_at s k == py_max (terminal_g s) (growth s - kd)) /\
  (growth s <= terminal_g s ->
     growth_at s k == py_min (terminal_g s) (growth s + kd)) /\
  (growth s - terminal_g s <= kd -> terminal_g s - growth s <= kd ->
     growth_at s k == terminal_g s).
Proof.
  intros Hd kd. split; [| split].
  - intros Hg. now apply growth_at_from_above.
  - intros Hg. now apply growth_at_from_below.
  - intros H1 H2. destruct (Qlt_le_dec (growth s) (terminal_g s)) as [Hg | Hg].
    + rewrite growth_at_from_below by lra. fold kd.
      destruct (py_min_cases (terminal_g s) (growth s + kd)) as [[H ->] | [H ->]]; lra.
    + rewrite growth_at_from_above by lra. fold kd.
      destruct (py_max_cases (terminal_g s) (growth s - kd)) as [[H ->] | [H ->]]; lra.
Qed.

Lemma growth_closed_form_witness :
  let s := _scenario_defaults None 5 0.10 in
  0 <= growth_decay s /\ growth_at s 4 == terminal_g s.
Proof.
  intros s.
  assert (Hd : 0 <= growth_decay s) by (intros H; discriminate H).
  split; [exact Hd |].
  destruct (growth_closed_form s 4 Hd) as (_ & _ & H).
  apply H; intros H'; discriminate H'.
Defined.

(** ** Normalisation *)

(** X8.  [_scenario_defaults] reads eleven keys only: adding, changing or
    removing any other key of the override dictionary leaves the
    normalised parameters unchanged. *)
Theorem unknown_keys_are_ignored (k : string) (v : Q) (o : gmap string Q) (h : Z) (r : Q) :
  k ∉ scenario_keys ->
  _scenario_defaults (Some (<[k := v]> o)) h r = _scenario_defaults (Some o) h r /\
  _scenario_defaults (Some (delete k o)) h r = _scenario_defaults (Some o) h r.
Proof.
  unfold scenario_keys, rate_fields. cbn [app].
  rewrite !not_elem_of_cons.
  intros (H1 & H2 & H3 & H4 & H5 & H6 & H7 & H8 & H9 & H10 & H11 & _).
  unfold _scenario_defaults. cbn [from_option id].
  rewrite !lookup_insert_ne, !lookup_delete_ne by congruence.
  split; reflexivity.
Qed.

Lemma unknown_keys_are_ignored_witness :
  _scenario_defaults (Some (<["currency"%string := 1]> ∅)) 5 0.10
    = _scenario_defaults (Some ∅) 5 0.10.
Proof.
  assert (Hk : "currency"%string ∉ scenario_keys).
  { unfold scenario_keys, rate_fields. cbn [app]. rewrite !not_elem_of_cons.
    repeat split; try discriminate. apply not_elem_of_nil. }
  destruct (unknown_keys_are_ignored "currency" 1 ∅ 5 0.10 Hk) as (H & _).
  exact H.
Defined.

(** X9.  For a supplied value of at most 100, [_pct] returns a value of
    at most 1 with the sign of the input, and applying [_pct] again to
    the result changes nothing. *)
Theorem _pct_of_at_most_100 (x d d' : Q) :
  x <= 100 ->
  _pct (Some x) d <= 1 /\
  (0 <= x -> 0 <= _pct (Some x) d) /\
  (x <= 0 -> _pct (Some x) d = x) /\
  _pct (Some (_pct (Some x) d)) d' = _pct (Some x) d.
Proof.
  intros Hx. destruct (Qlt_le_dec 1 x) as [H1 | H1].
  - rewrite (_pct_percent _ _ H1).
    assert (Hle : x / 100 <= 1) by (apply Qle_shift_div_r; [reflexivity | lra]).
    assert (Hpos : 0 <= x / 100) by (apply Qle_shift_div_l; [reflexivity | lra]).
    split; [exact Hle |]. split; [intros _; exact Hpos |].
    split; [intros H0; lra |]. now apply _pct_decimal.
  - rewrite !(_pct_decimal _ _ H1). split; [exact H1 |].
    split; [intros H0; exact H0 |]. split; reflexivity.
Qed.

Lemma _pct_of_at_most_100_witness :
  12.5 <= 100 /\ _pct (Some (_pct (Some 12.5) 0.10)) 0.10 = _pct (Some 12.5) 0.10.
Proof.
  assert (Hx : 12.5 <= 100) by (intros H; discriminate H).
  split; [exact Hx |].
  destruct (_pct_of_at_most_100 12.5 0.10 0.10 Hx) as (_ & _ & _ & H). exact H.
Defined.

(** ** Rounding to two places *)

Section Rounding.

Lemma round_half_even_range (x : Q) :
  (Qfloor x <= round_half_even x <= Qfloor x + 1)%Z.
Proof.
  unfold round_half_even.
  destruct (Qcompare (x - inject_Z (Qfloor x)) (1 # 2)); [destruct (Z.even _) | |]; lia.
Qed.

Lemma Qfloor_bounds (x : Q) : inject_Z (Qfloor x) <= x /\ x < inject_Z (Qfloor x) + 1.
Proof.
  split; [apply Qfloor_le |].
  pose proof (Qlt_floor x) as H. now rewrite inject_Z_plus in H.
Qed.

(** The nearest integer is within one half. *)
Lemma round_half_even_close (x : Q) :
  inject_Z (round_half_even x) - (1 # 2) <= x /\
  x <= inject_Z (round_half_even x) + (1 # 2).
Proof.
  destruct (Qfloor_bounds x) as [H1 H2]. unfold round_half_even.
  destruct (Qcompare_spec (x - inject_Z (Qfloor x)) (1 # 2)) as [H | H | H].
  - destruct (Z.even (Qfloor x)); [| rewrite inject_Z_plus; change (inject_Z 1) with 1];
      split; lra.
  - split; lra.
  - rewrite inject_Z_plus. change (inject_Z 1) with 1. split; lra.
Qed.

Lemma round_half_even_le (x y : Q) : x <= y -> (round_half_even x <= round_half_even y)%Z.
Proof.
  intros Hxy. pose proof (Qfloor_resp_le x y Hxy) as Hf.
  destruct (Z.eq_dec (Qfloor x) (Qfloor y)) as [He | Hne].
  - unfold round_half_even. rewrite <- He.
    destruct (Qcompare_spec (x - inject_Z (Qfloor x)) (1 # 2)) as [H | H | H];
      destruct (Qcompare_spec (y - inject_Z (Qfloor x)) (1 # 2)) as [H' | H' | H'];
      try destruct (Z.even (Qfloor x)); try lia; exfalso; lra.
  - pose proof (round_half_even_range x). pose proof (round_half_even_range y). lia.
Qed.

Lemma round_half_even_Qeq (x y : Q) : x == y -> round_half_even x = round_half_even y.
Proof.
  intros Hxy. unfold round_half_even. rewrite !(Qfloor_comp x y Hxy).
  now rewrite (Qcompare_comp _ _ (Qminus_comp _ _ Hxy _ _ (Qeq_refl _)) _ _ (Qeq_refl _)).
Qed.

Lemma round2_Qeq (x y : Q) : x == y -> round2 x = round2 y.
Proof.
  intros Hxy. unfold round2. f_equal. f_equal. apply round_half_even_Qeq.
  now rewrite Hxy.
Qed.

Lemma round2_le (x y : Q) : x <= y -> round2 x <= round2 y.
Proof.
  intros Hxy. unfold round2.
  assert (H : (round_half_even (x * 100) <= round_half_even (y * 100))%Z)
    by (apply round_half_even_le; lra).
  rewrite Zle_Qle in H. unfold Qdiv. apply Qmult_le_compat_r; [exact H | discriminate].
Qed.

(** [round(x, 2)] is within half a cent of [x]. *)
Lemma round2_close (x : Q) : round2 x - (1 # 200) <= x /\ x <= round2 x + (1 # 200).
Proof.
  unfold round2. destruct (round_half_even_close (x * 100)) as [H1 H2].
  set (k := inject_Z (round_half_even (x * 100))) in *. clearbody k.
  assert (Hk : k / 100 == k * (1 # 100)) by reflexivity.
  rewrite Hk. lra.
Qed.

(** Two values less than a cent apart round to values at most a cent
    apart. *)
Lemma round2_nearby (x y : Q) :
  x - y < 1 # 100 -> y - x < 1 # 100 ->
  - (1 # 100) <= round2 x - round2 y /\ round2 x - round2 y <= 1 # 100.
Proof.
  intros H1 H2. unfold round2.
  destruct (round_half_even_close (x * 100)) as [Hx1 Hx2].
  destruct (round_half_even_close (y * 100)) as [Hy1 Hy2].
  set (a := round_half_even (x * 100)) in *. set (b := round_half_even (y * 100)) in *.
  clearbody a b.
  assert (Hab : (a - b < 2)%Z).
  { rewrite Zlt_Qlt. unfold Z.sub. rewrite inject_Z_plus, inject_Z_opp.
    change (inject_Z 2) with 2. lra. }
  assert (Hba : (b - a < 2)%Z).
  { rewrite Zlt_Qlt. unfold Z.sub. rewrite inject_Z_plus, inject_Z_opp.
    change (inject_Z 2) with 2. lra. }
  assert (Hab' : inject_Z a - inject_Z b <= 1).
  { assert (H : (a - b <= 1)%Z) by lia. rewrite Zle_Qle in H.
    unfold Z.sub in H. rewrite inject_Z_plus, inject_Z_opp in H. exact H. }
  assert (Hba' : inject_Z b - inject_Z a <= 1).
  { assert (H : (b - a <= 1)%Z) by lia. rewrite Zle_Qle in H.
    unfold Z.sub in H. rewrite inject_Z_plus, inject_Z_opp in H. exact H. }
  assert (Ea : inject_Z a / 100 == inject_Z a * (1 # 100)) by reflexivity.
  assert (Eb : inject_Z b / 100 == inject_Z b * (1 # 100)) by reflexivity.
  rewrite Ea, Eb. split; lra.
Qed.

End Rounding.

(** X13.  In every returned valuation, [pvByScenario["base"]] is within
    0.005 of the base enterprise value, and a synthesised bull (resp.
    bear) value is within one cent of [round(1.2 * pvByScenario["base"], 2)]
    (resp. [round(0.8 * pvByScenario["base"], 2)]). *)
Theorem reported_values_within_a_cent (req : DcfRequest) (c : Core) :
  dcf_core req = Ok c ->
  exists pv_base,
    c_pv_by_scenario c !! "base"%string = Some pv_base /\
    pv_base - (1 # 200) <= c_ev_base c /\ c_ev_base c <= pv_base + (1 # 200) /\
    (bull (request_scenarios req) = None ->
       exists pv_bull, c_pv_by_scenario c !! "bull"%string = Some pv_bull /\
         - (1 # 100) <= pv_bull - round2 (1.20 * pv_base) /\
         pv_bull - round2 (1.20 * pv_base) <= 1 # 100) /\
    (bear (request_scenarios req) = None ->
       exists pv_bear, c_pv_by_scenario c !! "bear"%string = Some pv_bear /\
         - (1 # 100) <= pv_bear - round2 (0.80 * pv_base) /\
         pv_bear - round2 (0.80 * pv_base) <= 1 # 100).
Proof.
  intros H. apply dcf_core_inv in H as (bf & lb & _ & _ & _ & Hb & Hbull & Hbear & _).
  exists (round2 (c_ev_base c)). destruct (round2_close (c_ev_base c)) as [H1 H2].
  split; [exact Hb |]. split; [exact H1 |]. split; [exact H2 |].
  split; intros Hnone.
  - rewrite Hnone in Hbull. destruct Hbull as (Hu & _).
    eexists. split; [exact Hu |]. apply round2_nearby.
    + set (e := c_ev_base c) in *. set (b := round2 e) in *. clearbody e b.
      lra.
    + set (e := c_ev_base c) in *. set (b := round2 e) in *. clearbody e b.
      lra.
  - rewrite Hnone in Hbear. destruct Hbear as (Hu & _).
    eexists. split; [exact Hu |]. apply round2_nearby.
    + set (e := c_ev_base c) in *. set (b := round2 e) in *. clearbody e b.
      lra.
    + set (e := c_ev_base c) in *. set (b := round2 e) in *. clearbody e b.
      lra.
Qed.

Lemma reported_values_within_a_cent_witness :
  exists c pv_base pv_bull,
    dcf_core acme_small = Ok c /\
    c_pv_by_scenario c !! "base"%string = Some pv_base /\
    c_pv_by_scenario c !! "bull"%string = Some pv_bull /\
    pv_bull - round2 (1.20 * pv_base) <= 1 # 100.
Proof.
  destruct (dcf_core acme_small) as [c | e] eqn:Hrun;
    [| vm_compute in Hrun; discriminate Hrun].
  destruct (reported_values_within_a_cent acme_small c Hrun)
    as (pv_base & Hb & _ & _ & Hbull & _).
  destruct (Hbull eq_refl) as (pv_bull & Hu & _ & Hle).
  exists c, pv_base, pv_bull. split; [reflexivity |]. split; [exact Hb |].
  split; [exact Hu | exact Hle].
Defined.

(** ** Supplied bull and bear scenarios *)

(** X10.  In every returned valuation a supplied bull (resp. bear)
    override is normalised on its own, with the request-level horizon and
    wacc as defaults and nothing taken from the base override, and is
    projected: its rows are recorded and its value is its own rounded
    enterprise value, not a multiple of the base value. *)
Theorem supplied_scenarios_are_projected (req : DcfRequest) (c : Core) :
  dcf_core req = Ok c ->
  let N := Z.max 1 (req_horizon req) in
  let r := _pct (req_wacc req) 0.10 in
  (forall o, bull (request_scenarios req) = Some o ->
     exists flows tv pv_tv last_row,
       _project_cash_flows (_scenario_defaults (Some o) N r) = Ok (flows, tv, pv_tv) /\
       last flows = Some last_row /\
       c_pv_by_scenario c !! "bull"%string = Some (round2 (cum_pv last_row + pv_tv)) /\
       c_flows_by c !! "bull"%string = Some flows) /\
  (forall o, bear (request_scenarios req) = Some o ->
     exists flows tv pv_tv last_row,
       _project_cash_flows (_scenario_defaults (Some o) N r) = Ok (flows, tv, pv_tv) /\
       last flows = Some last_row /\
       c_pv_by_scenario c !! "bear"%string = Some (round2 (cum_pv last_row + pv_tv)) /\
       c_flows_by c !! "bear"%string = Some flows).
Proof.
  intros H N r. apply dcf_core_inv in H as (_ & _ & _ & _ & _ & _ & Hbull & Hbear & _).
  unfold optional_scenario in Hbull, Hbear.
  split; intros o Ho.
  - rewrite Ho in Hbull.
    destruct Hbull as (flows & ev & (tv & pv_tv & l & Hrun & Hl & ->) & Hpv & Hfb).
    exists flows, tv, pv_tv, l. repeat split; assumption.
  - rewrite Ho in Hbear.
    destruct Hbear as (flows & ev & (tv & pv_tv & l & Hrun & Hl & ->) & Hpv & Hfb).
    exists flows, tv, pv_tv, l. repeat split; assumption.
Qed.

(** A request whose bull override is the empty dictionary. *)
Lemma supplied_scenarios_are_projected_witness :
  let req := {| req_ticker := "ACME"; req_horizon := 2; req_wacc := None;
                req_scenarios :=
                  Some {| base := {[ "revenue0"%string := 10 ]};
                          bull := Some ∅; bear := None |} |} in
  exists c flows, dcf_core req = Ok c /\
    c_flows_by c !! "bull"%string = Some flows /\ length flows = 2%nat.
Proof.
  intros req.
  destruct (dcf_core req) as [c | e] eqn:Hrun; [| vm_compute in Hrun; discriminate Hrun].
  destruct (supplied_scenarios_are_projected req c Hrun) as (Hbull & _).
  destruct (Hbull ∅ eq_refl) as (flows & tv & pv_tv & l & Hp & _ & _ & Hfb).
  exists c, flows. split; [reflexivity |]. split; [exact Hfb |].
  destruct (projection_row_count _ flows tv pv_tv Hp) as (Hlen & _).
  exact Hlen.
Defined.

(** ** Terminal value *)

Lemma gordon_denominator_ge (r g : Q) : 1e-6 <= gordon_denominator r g.
Proof.
  unfold gordon_denominator.
  destruct (py_max_cases 1e-6 (r - g)) as [[H ->] | [H ->]]; lra.
Qed.

Lemma py_max_Qeq (a b b' : Q) : b == b' -> py_max a b == py_max a b'.
Proof.
  intros Hb. destruct (py_max_cases a b) as [[H ->] | [H ->]];
    destruct (py_max_cases a b') as [[H' ->] | [H' ->]]; lra.
Qed.

Lemma Qdiv_le_floor (f d : Q) : 0 <= f -> 1e-6 <= d -> 0 <= f / d /\ f / d <= 1000000 * f.
Proof.
  intros Hf Hd. assert (He : 1e-6 == 1 # 1000000) by reflexivity. rewrite He in Hd.
  assert (Hpos : 0 < d) by lra. split.
  - apply Qle_shift_div_l; [exact Hpos | lra].
  - apply Qle_shift_div_r; [exact Hpos |].
    assert (H : 1 <= 1000000 * d) by lra. nra.
Qed.

(** X14.  The terminal value a projection returns has the sign of the
    next-year free cash flow and is at most 1000000 times it in
    magnitude, whatever the sign of [wacc - terminal_g]; when [wacc]
    exceeds [terminal_g] by more than [1e-6] it is the Gordon value
    [fcf_next / (wacc - terminal_g)].  Its present value is the terminal
    value divided by [(1 + wacc) ** horizon]. *)
Theorem terminal_value_sign_and_bound (s : ScenarioParameters)
    (flows : list CashFlowRow) (tv pv_tv : Q) (last_row : CashFlowRow) :
  _project_cash_flows s = Ok (flows, tv, pv_tv) ->
  last flows = Some last_row ->
  let fcf_next := nopat last_row * (1 + terminal_g s) * (1 - reinvestment_rate s) in
  (0 <= fcf_next -> 0 <= tv /\ tv <= 1000000 * fcf_next) /\
  (fcf_next <= 0 -> 1000000 * fcf_next <= tv /\ tv <= 0) /\
  (1e-6 < wacc s - terminal_g s -> tv = fcf_next / (wacc s - terminal_g s)) /\
  pv_tv = tv / (1 + wacc s) ^ horizon s.
Proof.
  intros Hrun Hl fcf_next.
  apply _project_cash_flows_inv in Hrun as (st & l & _ & _ & Hl' & Htv & Hpv).
  assert (l = last_row) by congruence. subst l. fold fcf_next in Htv.
  pose proof (gordon_denominator_ge (wacc s) (terminal_g s)) as Hd.
  split; [| split; [| split]].
  - intros Hf. rewrite Htv. now apply Qdiv_le_floor.
  - intros Hf. rewrite Htv.
    destruct (Qdiv_le_floor (- fcf_next) (gordon_denominator (wacc s) (terminal_g s)))
      as [H1 H2]; [lra | exact Hd |].
    assert (E : - fcf_next / gordon_denominator (wacc s) (terminal_g s)
                == - (fcf_next / gordon_denominator (wacc s) (terminal_g s))).
    { unfold Qdiv. ring. }
    rewrite E in H1, H2. split; lra.
  - intros Hgap. rewrite Htv. now rewrite (gordon_denominator_above _ _ Hgap).
  - exact Hpv.
Qed.

Lemma terminal_value_sign_and_bound_witness :
  exists flows tv pv_tv,
    _project_cash_flows (_scenario_defaults None 1 0.10) = Ok (flows, tv, pv_tv) /\
    0 <= tv.
Proof.
  destruct (_project_cash_flows (_scenario_defaults None 1 0.10))
    as [[[flows tv] pv_tv] | e] eqn:Hrun; [| vm_compute in Hrun; discriminate Hrun].
  destruct (last flows) as [last_row |] eqn:Hl;
    [| exfalso; vm_compute in Hrun; injection Hrun as <- _ _; discriminate Hl].
  exists flows, tv, pv_tv. split; [reflexivity |].
  destruct (terminal_value_sign_and_bound _ flows tv pv_tv last_row Hrun Hl) as (H & _).
  apply H. vm_compute in Hrun. injection Hrun as <- _ _.
  vm_compute in Hl. injection Hl as <-. intros H'; discriminate H'.
Defined.

(** ** The grid and the base valuation *)

(** X11.  When the base scenario has no [horizon] key and its normalised
    wacc and terminal growth are those of a grid cell, the sensitivity
    list of a returned valuation holds that cell with the value reported
    in [pvByScenario["base"]]. *)
Theorem grid_contains_base_valuation (req : DcfRequest) (c : Core) (w : Z) (g_i : Q) :
  dcf_core req = Ok c ->
  base (request_scenarios req) !! "horizon"%string = None ->
  In w wacc_grid -> In g_i terminalG_grid ->
  wacc (base_parameters req) == inject_Z w / 100 ->
  terminal_g (base_parameters req) == g_i / 100 ->
  exists p, In p (c_sensitivity c) /\
    sp_wacc p = inject_Z w /\ sp_terminalG p = g_i /\
    c_pv_by_scenario c !! "base"%string = Some (sp_value p).
Proof.
  intros H Hh Hw Hg Er Eg.
  apply dcf_core_inv in H
    as (bf & lb & (tv & pv_tv & l & Hrun & Hl' & Hev) & Hl & _ & Hb & _ & _ & _ & Hs & _).
  assert (l = lb) by congruence. subst l.
  apply _project_cash_flows_inv in Hrun as (st & l & _ & _ & Hl'' & Htv & Hpv).
  assert (l = lb) by congruence. subst l.
  destruct (horizon_without_override req _ Hh) as (HN & _).
  fold (base_parameters req) in HN. fold (request_horizon req) in HN.
  set (fcf_next := nopat lb * (1 + terminal_g (base_parameters req))
                     * (1 - reinvestment_rate (base_parameters req))) in *.
  exists (cell_point fcf_next (cum_pv lb) (request_horizon req) w g_i).
  split; [| split; [reflexivity | split; [reflexivity |]]].
  - rewrite Hs. unfold sensitivity_points. apply in_flat_map. exists w.
    split; [exact Hw |]. now apply in_map.
  - rewrite Hb. f_equal. cbn [sp_value cell_point]. apply round2_Qeq.
    rewrite Hev, Hpv, Htv, HN. unfold gordon_denominator.
    rewrite (py_max_Qeq 1e-6 (wacc (base_parameters req) - terminal_g (base_parameters req))
               (inject_Z w / 100 - g_i / 100)) by (rewrite Er, Eg; reflexivity).
    now rewrite Er.
Qed.

Lemma grid_contains_base_valuation_witness :
  exists c p, dcf_core acme = Ok c /\ In p (c_sensitivity c) /\
    sp_wacc p = inject_Z 10 /\ sp_terminalG p = 2.0 /\
    c_pv_by_scenario c !! "base"%string = Some (sp_value p).
Proof.
  destruct (dcf_core acme) as [c | e] eqn:Hrun; [| vm_compute in Hrun; discriminate Hrun].
  assert (Hh : base (request_scenarios acme) !! "horizon"%string = None) by reflexivity.
  assert (Hw : In 10%Z wacc_grid) by (vm_compute; tauto).
  assert (Hg : In 2.0 terminalG_grid) by (vm_compute; tauto).
  assert (Er : wacc (base_parameters acme) == inject_Z 10 / 100) by reflexivity.
  assert (Eg : terminal_g (base_parameters acme) == 2.0 / 100) by reflexivity.
  destruct (grid_contains_base_valuation acme c 10 2.0 Hrun Hh Hw Hg Er Eg)
    as (p & Hp & H1 & H2 & H3).
  exists c, p. repeat split; assumption.
Defined.

(** ** Monotonicity of the sensitivity table *)

Lemma Qpower_base_le (a b : Q) (n : Z) :
  0 < a -> a <= b -> (0 <= n)%Z -> a ^ n <= b ^ n.
Proof.
  intros Ha Hab Hn. rewrite <- (Z2Nat.id n Hn). clear Hn.
  induction (Z.to_nat n) as [| k IH].
  - apply Qle_refl.
  - rewrite Nat2Z.inj_succ, <- Z.add_1_r, !Qpower_succ by lra.
    pose proof (Qpower_0_lt a (Z.of_nat k) Ha) as Hp.
    set (x := a ^ Z.of_nat k) in *. set (y := b ^ Z.of_nat k) in *.
    clearbody x y. nra.
Qed.

Lemma Qdiv_antitone (f d d' : Q) : 0 <= f -> 0 < d -> d <= d' -> f / d' <= f / d.
Proof.
  intros Hf Hd Hdd. apply Qle_shift_div_l; [exact Hd |].
  assert (Hq : 0 <= f / d') by (apply Qle_shift_div_l; lra).
  assert (E : f / d' * d' == f) by (field; lra).
  set (q := f / d') in *. clearbody q. nra.
Qed.

Lemma Qdiv_le_compat (x y p : Q) : x <= y -> 0 < p -> x / p <= y / p.
Proof.
  intros Hxy Hp. unfold Qdiv. apply Qmult_le_compat_r; [exact Hxy |].
  apply Qlt_le_weak. now apply Qinv_lt_0_compat.
Qed.

Lemma cell_point_monotone (fcf_next cum : Q) (N w w' : Z) (g g' : Q) :
  0 <= fcf_next -> (0 <= N)%Z -> (0 <= w <= w')%Z -> g' <= g ->
  sp_value (cell_point fcf_next cum N w' g') <= sp_value (cell_point fcf_next cum N w g).
Proof.
  intros Hf HN [Hw Hww] Hg. cbn [sp_value cell_point]. apply round2_le.
  assert (Hw0 : 0 <= inject_Z w) by (change (inject_Z 0 <= inject_Z w); now rewrite <- Zle_Qle).
  assert (Hw1 : inject_Z w <= inject_Z w') by (now rewrite <- Zle_Qle).
  change (inject_Z w / 100) with (inject_Z w * (1 # 100)).
  change (inject_Z w' / 100) with (inject_Z w' * (1 # 100)).
  change (g / 100) with (g * (1 # 100)). change (g' / 100) with (g' * (1 # 100)).
  set (rw := inject_Z w * (1 # 100)). set (rw' := inject_Z w' * (1 # 100)).
  set (rg := g * (1 # 100)). set (rg' := g' * (1 # 100)).
  assert (Hr : 0 <= rw /\ rw <= rw') by (unfold rw, rw'; split; lra).
  assert (Hgg : rg' <= rg) by (unfold rg, rg'; lra).
  clearbody rw rw' rg rg'. destruct Hr as [Hr0 Hr1].
  assert (He : 1e-6 == 1 # 1000000) by reflexivity.
  assert (HD : 0 < py_max 1e-6 (rw - rg) /\ py_max 1e-6 (rw - rg) <= py_max 1e-6 (rw' - rg')).
  { destruct (py_max_cases 1e-6 (rw - rg)) as [[H ->] | [H ->]];
      destruct (py_max_cases 1e-6 (rw' - rg')) as [[H' ->] | [H' ->]];
      rewrite ?He in *; split; lra. }
  destruct HD as [HD0 HD1].
  assert (HP : 0 < (1 + rw) ^ N) by (apply Qpower_0_lt; lra).
  assert (HPP : (1 + rw) ^ N <= (1 + rw') ^ N) by (apply Qpower_base_le; [lra | lra | exact HN]).
  set (D := py_max 1e-6 (rw - rg)) in *. set (D' := py_max 1e-6 (rw' - rg')) in *.
  set (P := (1 + rw) ^ N) in *. set (P' := (1 + rw') ^ N) in *.
  assert (H1 : fcf_next / D' <= fcf_next / D) by (now apply Qdiv_antitone).
  assert (H0 : 0 <= fcf_next / D') by (apply Qle_shift_div_l; lra).
  assert (H2 : fcf_next / D' / P' <= fcf_next / D' / P) by (now apply Qdiv_antitone).
  assert (H3 : fcf_next / D' / P <= fcf_next / D / P) by (now apply Qdiv_le_compat).
  lra.
Qed.

(** X12.  In a returned valuation whose next-year base free cash flow is
    not negative, the sensitivity table is monotone: of two cells, the
    one with the lower (or equal) wacc and the higher (or equal) terminal
    growth never has the smaller value. *)
Theorem sensitivity_table_is_monotone (req : DcfRequest) (c : Core)
    (base_flows : list CashFlowRow) (last_base : CashFlowRow) (p p' : SensitivityPoint) :
  dcf_core req = Ok c ->
  c_flows_by c !! "base"%string = Some base_flows ->
  last base_flows = Some last_base ->
  0 <= nopat last_base * (1 + terminal_g (base_parameters req))
         * (1 - reinvestment_rate (base_parameters req)) ->
  In p (c_sensitivity c) -> In p' (c_sensitivity c) ->
  sp_wacc p <= sp_wacc p' -> sp_terminalG p' <= sp_terminalG p ->
  sp_value p' <= sp_value p.
Proof.
  intros H Hfb Hl Hf Hp Hp' Hw Hg.
  apply dcf_core_inv in H as (bf & lb & _ & Hl' & Hfb' & _ & _ & _ & _ & Hs & _).
  assert (bf = base_flows) by congruence. subst bf.
  assert (lb = last_base) by congruence. subst lb.
  rewrite Hs in Hp, Hp'. unfold sensitivity_points in Hp, Hp'.
  apply in_flat_map in Hp as (w & Hwin & Hp). apply in_map_iff in Hp as (g & <- & Hgin).
  apply in_flat_map in Hp' as (w' & Hwin' & Hp'). apply in_map_iff in Hp' as (g' & <- & Hgin').
  cbn [sp_wacc sp_terminalG cell_point] in Hw, Hg.
  rewrite <- Zle_Qle in Hw.
  apply cell_point_monotone; [exact Hf | unfold request_horizon; lia | | exact Hg].
  split; [| exact Hw].
  pose proof wacc_grid_nonneg as Hall. rewrite Forall_forall in Hall.
  apply Hall. now apply list_elem_of_In.
Qed.

Lemma sensitivity_table_is_monotone_witness :
  exists c p p', dcf_core acme = Ok c /\
    In p (c_sensitivity c) /\ In p' (c_sensitivity c) /\
    sp_wacc p = inject_Z 6 /\ sp_wacc p' = inject_Z 12 /\
    sp_value p' <= sp_value p.
Proof.
  destruct (dcf_core acme) as [c | e] eqn:Hrun; [| vm_compute in Hrun; discriminate Hrun].
  destruct (dcf_core_inv acme c Hrun)
    as (bf & lb & _ & Hl & Hfb & _ & _ & _ & _ & Hs & _).
  set (F := nopat lb * (1 + terminal_g (base_parameters acme))
              * (1 - reinvestment_rate (base_parameters acme))) in *.
  assert (Hp : In (cell_point F (cum_pv lb) (request_horizon acme) 6 2.5) (c_sensitivity c)).
  { rewrite Hs. apply in_flat_map. exists 6%Z. split; [vm_compute; tauto |].
    apply in_map. vm_compute. tauto. }
  assert (Hp' : In (cell_point F (cum_pv lb) (request_horizon acme) 12 0.0) (c_sensitivity c)).
  { rewrite Hs. apply in_flat_map. exists 12%Z. split; [vm_compute; tauto |].
    apply in_map. vm_compute. tauto. }
  exists c, (cell_point F (cum_pv lb) (request_horizon acme) 6 2.5),
    (cell_point F (cum_pv lb) (request_horizon acme) 12 0.0).
  split; [reflexivity |]. split; [exact Hp |]. split; [exact Hp' |].
  split; [reflexivity |]. split; [reflexivity |].
  apply (sensitivity_table_is_monotone acme c bf lb _ _ Hrun Hfb Hl); try assumption.
  - vm_compute in Hrun. injection Hrun as <-. vm_compute in Hfb. injection Hfb as <-.
    vm_compute in Hl. injection Hl as <-. intros H; discriminate H.
  - intros H; discriminate H.
  - intros H; discriminate H.
Defined.

(** ** Scaling the starting revenue *)

Section Scaling.

Variables (c : Q) (s s' : ScenarioParameters).
Hypothesis Hc : 0 <= c.
Hypothesis Hs : revenue_scaled c s s'.

Lemma growth_at_scaled (k : nat) : growth_at s' k = growth_at s k.
Proof.
  destruct Hs as (_ & Hg & Hd & _ & _ & _ & Ht & _).
  unfold growth_at. now rewrite Hg, Hd, Ht.
Qed.

Lemma revenue_at_scaled (k : nat) : revenue_at s' k == c * revenue_at s k.
Proof.
  induction k as [| k IH]; cbn [revenue_at].
  - now destruct Hs as (H & _).
  - rewrite IH, growth_at_scaled. ring.
Qed.

Lemma nopat_at_scaled (i : nat) : nopat_at s' i == c * nopat_at s i.
Proof.
  unfold nopat_at. rewrite revenue_at_scaled.
  destruct Hs as (_ & _ & _ & Hm & Ht & _). rewrite Hm, Ht. ring.
Qed.

Lemma py_max_0_scaled (x y : Q) : y == c * x -> py_max 0 y == c * py_max 0 x.
Proof.
  intros Hy. destruct (py_max_cases 0 y) as [[H ->] | [H ->]];
    destruct (py_max_cases 0 x) as [[H' ->] | [H' ->]]; nra.
Qed.

Lemma fcf_at_scaled (i : nat) : fcf_at s' i == c * fcf_at s i.
Proof.
  unfold fcf_at.
  rewrite (py_max_0_scaled (nopat_at s i * reinvestment_rate s)).
  - rewrite nopat_at_scaled. ring.
  - rewrite nopat_at_scaled. destruct Hs as (_ & _ & _ & _ & _ & Hr & _).
    rewrite Hr. ring.
Qed.

Lemma discount_at_scaled (i : nat) : discount_at s' i = discount_at s i.
Proof.
  destruct Hs as (_ & _ & _ & _ & _ & _ & _ & Hw & _).
  unfold discount_at. now rewrite Hw.
Qed.

Lemma cum_pv_at_scaled (k : nat) : cum_pv_at s' k == c * cum_pv_at s k.
Proof.
  induction k as [| k IH]; cbn [cum_pv_at].
  - ring.
  - rewrite IH, fcf_at_scaled, discount_at_scaled. ring.
Qed.

End Scaling.

Lemma last_rows (s : ScenarioParameters) (n : nat) :
  last (map (row_at s) (seq 0 (Datatypes.S n))) = Some (row_at s n).
Proof. rewrite seq_S, map_app. cbn [map]. apply last_snoc. Qed.

(** X15.  Multiplying [revenue0] by a factor [c >= 0], everything else
    equal, multiplies the terminal value, its present value and the
    enterprise value before rounding by [c]; the projection returns with
    the same number of rows. *)
Theorem enterprise_value_scales_with_revenue0 (c : Q) (s s' : ScenarioParameters)
    (flows : list CashFlowRow) (tv pv_tv : Q) (last_row : CashFlowRow) :
  0 <= c ->
  revenue_scaled c s s' ->
  _project_cash_flows s = Ok (flows, tv, pv_tv) ->
  last flows = Some last_row ->
  exists flows' tv' pv_tv' last_row',
    _project_cash_flows s' = Ok (flows', tv', pv_tv') /\
    last flows' = Some last_row' /\
    length flows' = length flows /\
    tv' == c * tv /\
    pv_tv' == c * pv_tv /\
    cum_pv last_row' + pv_tv' == c * (cum_pv last_row + pv_tv).
Proof.
  intros Hc Hs Hrun Hl.
  pose proof Hs as (_ & _ & _ & _ & _ & Hre & Htg & Hw & Hh).
  destruct (_project_cash_flows_rows s flows tv pv_tv Hrun) as (Hf & HN & Hr).
  apply _project_cash_flows_inv in Hrun as (st & l & _ & _ & Hl0 & Htv & Hpv).
  assert (l = last_row) by congruence. subst l.
  destruct (_project_cash_flows_Ok s') as (flows' & l' & Hl' & Hlen' & Hrun');
    [now rewrite Hh | now rewrite Hw |].
  destruct (_project_cash_flows_rows s' flows' _ _ Hrun') as (Hf' & _ & _).
  exists flows'. eexists. eexists. exists l'.
  split; [exact Hrun' |]. split; [exact Hl' |].
  assert (Hn : exists n, Z.to_nat (horizon s) = Datatypes.S n).
  { exists (Z.to_nat (horizon s) - 1)%nat. lia. }
  destruct Hn as (n & Hn).
  rewrite Hh, Hn in Hf'. rewrite Hn in Hf. subst flows flows'.
  rewrite last_rows in Hl, Hl'. injection Hl as <-. injection Hl' as <-.
  split; [now rewrite !length_map, !length_seq |].
  cbn [nopat cum_pv row_at] in *.
  assert (Etv : nopat_at s' n * (1 + terminal_g s') * (1 - reinvestment_rate s')
                  / gordon_denominator (wacc s') (terminal_g s') == c * tv).
  { rewrite Htv, Hre, Htg, Hw, (nopat_at_scaled c s s' Hs). unfold Qdiv. ring. }
  split; [exact Etv |].
  assert (Epv : nopat_at s' n * (1 + terminal_g s') * (1 - reinvestment_rate s')
                  / gordon_denominator (wacc s') (terminal_g s')
                  / (1 + wacc s') ^ horizon s' == c * pv_tv).
  { rewrite Etv, Hpv, Hw, Hh. unfold Qdiv. ring. }
  split; [exact Epv |].
  rewrite Epv, (cum_pv_at_scaled c s s' Hc Hs). ring.
Qed.

Lemma enterprise_value_scales_with_revenue0_witness :
  let s := _scenario_defaults (Some {[ "revenue0"%string := 10 ]}) 1 0.10 in
  let s' := _scenario_defaults (Some {[ "revenue0"%string := 30 ]}) 1 0.10 in
  exists flows tv pv_tv flows' tv' pv_tv',
    _project_cash_flows s = Ok (flows, tv, pv_tv) /\
    _project_cash_flows s' = Ok (flows', tv', pv_tv') /\
    tv' == 3 * tv.
Proof.
  intros s s'.
  assert (Hc : 0 <= 3) by (intros H; discriminate H).
  assert (Hs : revenue_scaled 3 s s') by (repeat split).
  destruct (_project_cash_flows s) as [[[flows tv] pv_tv] | e] eqn:Hrun;
    [| vm_compute in Hrun; discriminate Hrun].
  destruct (last flows) as [last_row |] eqn:Hl;
    [| exfalso; vm_compute in Hrun; injection Hrun as <- _ _; discriminate Hl].
  destruct (enterprise_value_scales_with_revenue0 3 s s' flows tv pv_tv last_row
              Hc Hs Hrun Hl) as (flows' & tv' & pv_tv' & l' & Hrun' & _ & _ & Htv & _).
  exists flows, tv, pv_tv, flows', tv', pv_tv'.
  split; [reflexivity |]. split; [exact Hrun' | exact Htv].
Defined.

(** ** Revenue at a constant growth rate *)

Lemma growth_at_steady (s : ScenarioParameters) (k : nat) :
  growth s == terminal_g s -> 0 <= growth_decay s ->
  growth_at s k == terminal_g s.
Proof.
  intros Hg Hd. rewrite growth_at_from_above by lra.
  assert (HK : 0 <= inject_Z (Z.of_nat k)).
  { change (inject_Z 0 <= inject_Z (Z.of_nat k)). rewrite <- Zle_Qle. lia. }
  set (K := inject_Z (Z.of_nat k)) in *. clearbody K.
  destruct (py_max_cases (terminal_g s) (growth s - K * growth_decay s))
    as [[H ->] | [H ->]]; nra.
Qed.

Lemma revenue_at_steady (s : ScenarioParameters) (k : nat) :
  growth s == terminal_g s -> 0 <= growth_decay s ->
  revenue_at s k == revenue0 s * (1 + terminal_g s) ^ Z.of_nat k.
Proof.
  intros Hg Hd. induction k as [| k IH]; cbn [revenue_at].
  - change (Z.of_nat 0) with 0%Z. cbn [Qpower]. ring.
  - rewrite IH, (growth_at_steady s k Hg Hd), Nat2Z.inj_succ, <- Z.add_1_r.
    rewrite Qpower_plus' by lia. rewrite Qpower_1_r. ring.
Qed.

(** X16.  When the starting growth equals [terminal_g] and
    [growth_decay] is not negative, growth never moves and the revenue of
    year [t] of a returned projection is [revenue0 * (1 + terminal_g) ** t]. *)
Theorem revenue_compounds_at_terminal_growth (s : ScenarioParameters)
    (flows : list CashFlowRow) (tv pv_tv : Q) (i : nat) (row : CashFlowRow) :
  _project_cash_flows s = Ok (flows, tv, pv_tv) ->
  growth s == terminal_g s -> 0 <= growth_decay s ->
  flows !! i = Some row ->
  revenue row == revenue0 s * (1 + terminal_g s) ^ (Z.of_nat i + 1).
Proof.
  intros Hrun Hg Hd Hi. apply _project_cash_flows_rows in Hrun as (-> & _ & _).
  apply lookup_rows in Hi as (-> & _). cbn [revenue row_at].
  rewrite (revenue_at_steady s (Datatypes.S i) Hg Hd).
  now rewrite Nat2Z.inj_succ, <- Z.add_1_r.
Qed.

Lemma revenue_compounds_at_terminal_growth_witness :
  let s := _scenario_defaults (Some {[ "growth"%string := 0.02 ]}) 2 0.10 in
  exists flows tv pv_tv row,
    _project_cash_flows s = Ok (flows, tv, pv_tv) /\ flows !! 1%nat = Some row /\
    revenue row == revenue0 s * (1 + terminal_g s) ^ 2.
Proof.
  intros s.
  assert (Hg : growth s == terminal_g s) by reflexivity.
  assert (Hd : 0 <= growth_decay s) by (intros H; discriminate H).
  destruct (_project_cash_flows s) as [[[flows tv] pv_tv] | e] eqn:Hrun;
    [| vm_compute in Hrun; discriminate Hrun].
  destruct (flows !! 1%nat) as [row |] eqn:Hi;
    [| exfalso; vm_compute in Hrun; injection Hrun as <- _ _; discriminate Hi].
  exists flows, tv, pv_tv, row. split; [reflexivity |]. split; [exact Hi |].
  exact (revenue_compounds_at_terminal_growth s flows tv pv_tv 1 row Hrun Hg Hd Hi).
Defined.

(** ** The exported file *)

Lemma string_length_app (s1 s2 : string) :
  String.length (s1 +:+ s2) = (String.length s1 + String.length s2)%nat.
Proof. induction s1 as [| a s1 IH]; [reflexivity | simpl; now f_equal]. Qed.

Lemma string_app_inj_r (s1 s2 t : string) : s1 +:+ t = s2 +:+ t -> s1 = s2.
Proof.
  revert s2. induction s1 as [| a s1 IH]; intros [| b s2] H.
  - reflexivity.
  - exfalso. apply (f_equal String.length) in H.
    rewrite !string_length_app in H. simpl in H. lia.
  - exfalso. apply (f_equal String.length) in H.
    rewrite !string_length_app in H. simpl in H. lia.
  - cbn in H. injection H as -> H. f_equal. now apply IH.
Qed.

Lemma export_files_cases (env : Env) (a : Assumptions) (pv : gmap string Q)
    (sens : list SensitivityPoint) (fb : gmap string (list CashFlowRow)) :
  export_files env a pv sens fb =
    if makedirs_ok env && HAS_OPENPYXL env && save_ok env
    then [("/tmp/madlab-dcf-" +:+ pretty (now_ms env)) +:+ "/dcf.xlsx"]
    else [].
Proof.
  unfold export_files, _write_workbook.
  destruct (makedirs_ok env), (HAS_OPENPYXL env), (save_ok env); reflexivity.
Qed.

(** X17.  A returned response lists at most one file.  It lists one
    exactly when the directory could be made, openpyxl is installed and
    the workbook could be saved; and two calls that both list a file,
    whatever their requests, list the same path exactly when their
    millisecond timestamps are equal. *)
Theorem exported_path_is_the_timestamp (env1 env2 : Env) (req1 req2 : DcfRequest)
    (resp1 resp2 : DcfResponse) :
  dcf env1 req1 = Ok resp1 ->
  dcf env2 req2 = Ok resp2 ->
  (length (files resp1) <= 1)%nat /\
  (files resp1 <> [] <->
     makedirs_ok env1 = true /\ HAS_OPENPYXL env1 = true /\ save_ok env1 = true) /\
  (files resp1 <> [] -> files resp2 <> [] ->
     (files resp1 = files resp2 <-> now_ms env1 = now_ms env2)).
Proof.
  intros H1 H2.
  apply dcf_Ok_inv in H1 as (c1 & _ & _ & _ & _ & ->).
  apply dcf_Ok_inv in H2 as (c2 & _ & _ & _ & _ & ->).
  rewrite !export_files_cases.
  destruct (makedirs_ok env1), (HAS_OPENPYXL env1), (save_ok env1); cbn [andb];
    (split; [cbn; lia |]);
    (split; [split; [intros H; try (now contradiction H); repeat split
                    | intros (? & ? & ?); discriminate] |]);
    intros Hne1; try (now contradiction Hne1).
  destruct (makedirs_ok env2 && HAS_OPENPYXL env2 && save_ok env2);
    intros Hne2; [| now contradiction Hne2].
  split.
  - intros H. injection H as H. apply string_app_inj_r in H.
    change (pretty (now_ms env1) = pretty (now_ms env2)) in H.
    now apply (inj pretty) in H.
  - intros ->. reflexivity.
Qed.

Lemma exported_path_is_the_timestamp_witness :
  exists resp, dcf env0 acme = Ok resp /\ (length (files resp) <= 1)%nat.
Proof.
  destruct (dcf env0 acme) as [resp | e] eqn:Hrun; [| vm_compute in Hrun; discriminate Hrun].
  exists resp. split; [reflexivity |].
  destruct (exported_path_is_the_timestamp env0 env0 acme acme resp resp Hrun Hrun)
    as (H & _).
  exact H.
Defined.

(** ** The request-level wacc *)

(** X18.  A request-level wacc written as a percentage [p] with
    [1 < p <= 100] and the same request with the decimal [p / 100] give
    the same outcome in every field. *)
Theorem request_wacc_percent_or_decimal (env : Env) (req : DcfRequest) (p : Q) :
  1 < p -> p <= 100 ->
  req_wacc req = Some p ->
  dcf env req =
    dcf env {| req_ticker := req_ticker req; req_horizon := req_horizon req;
               req_wacc := Some (p / 100); req_scenarios := req_scenarios req |}.
Proof.
  intros Hlo Hhi Hw.
  assert (Hdec : p / 100 <= 1) by (apply Qle_shift_div_r; [reflexivity | lra]).
  unfold dcf, dcf_core. cbn [req_ticker req_horizon req_wacc req_scenarios].
  rewrite Hw, (_pct_percent _ _ Hlo), (_pct_decimal _ _ Hdec). reflexivity.
Qed.

Lemma request_wacc_percent_or_decimal_witness :
  1 < 10 /\ 10 <= 100 /\
  dcf env0 acme =
    dcf env0 {| req_ticker := req_ticker acme; req_horizon := req_horizon acme;
                req_wacc := Some (10 / 100); req_scenarios := req_scenarios acme |}.
Proof.
  assert (Hlo : 1 < 10) by reflexivity.
  assert (Hhi : 10 <= 100) by (intros H; discriminate H).
  split; [exact Hlo |]. split; [exact Hhi |].
  exact (request_wacc_percent_or_decimal env0 acme 10 Hlo Hhi eq_refl).
Defined.

(** ** Enterprise value as a sum *)

(** X19.  In every returned valuation the base enterprise value is the
    sum of the [pv_fcf] fields of all base rows plus the discounted
    terminal value, and [pvByScenario["base"]] is that sum rounded to two
    places. *)
Theorem base_value_is_sum_of_present_values (req : DcfRequest) (c : Core) :
  dcf_core req = Ok c ->
  exists base_flows tv pv_tv,
    _project_cash_flows (base_parameters req) = Ok (base_flows, tv, pv_tv) /\
    c_flows_by c !! "base"%string = Some base_flows /\
    pv_tv = tv / (1 + wacc (base_parameters req)) ^ horizon (base_parameters req) /\
    c_ev_base c = Qsum (pv_fcf <$> base_flows) + pv_tv /\
    c_pv_by_scenario c !! "base"%string
      = Some (round2 (Qsum (pv_fcf <$> base_flows) + pv_tv)).
Proof.
  intros H. apply dcf_core_inv in H
    as (bf & lb & (tv & pv_tv & l & Hrun & Hl' & Hev) & Hl & Hfb & Hb & _).
  assert (l = lb) by congruence. subst l.
  exists bf, tv, pv_tv. split; [exact Hrun |]. split; [exact Hfb |].
  destruct (_project_cash_flows_rows _ _ _ _ Hrun) as (Hf & HN & _).
  pose proof Hrun as Hinv.
  apply _project_cash_flows_inv in Hinv as (_ & _ & _ & _ & _ & _ & Hpv).
  split; [exact Hpv |].
  assert (Hsum : cum_pv lb = Qsum (pv_fcf <$> bf)).
  { assert (Hn : exists n, Z.to_nat (horizon (base_parameters req)) = Datatypes.S n).
    { exists (Z.to_nat (horizon (base_parameters req)) - 1)%nat. lia. }
    destruct Hn as (n & Hn). rewrite Hn in Hf. subst bf.
    rewrite last_rows in Hl. injection Hl as <-.
    cbn [cum_pv row_at]. now rewrite Qsum_rows. }
  rewrite Hb, Hev, Hsum. split; reflexivity.
Qed.

Lemma base_value_is_sum_of_present_values_witness :
  exists c base_flows, dcf_core acme = Ok c /\
    c_flows_by c !! "base"%string = Some base_flows /\
    exists pv_tv, c_ev_base c = Qsum (pv_fcf <$> base_flows) + pv_tv.
Proof.
  destruct (dcf_core acme) as [c | e] eqn:Hrun; [| vm_compute in Hrun; discriminate Hrun].
  destruct (base_value_is_sum_of_present_values acme c Hrun)
    as (bf & tv & pv_tv & _ & Hfb & _ & Hev & _).
  exists c, bf. split; [reflexivity |]. split; [exact Hfb |]. exists pv_tv. exact Hev.
Defined.

(** ** Sign of the valuation *)

Section UsualInputs.

Variable s : ScenarioParameters.
Hypothesis Hs : usual_inputs s.

Lemma growth_at_ge_minus_1 (k : nat) : -1 <= growth_at s k.
Proof.
  destruct Hs as (_ & Hg & Ht & Hd & _).
  assert (HK : 0 <= inject_Z (Z.of_nat k)).
  { change (inject_Z 0 <= inject_Z (Z.of_nat k)). rewrite <- Zle_Qle. lia. }
  destruct (Qlt_le_dec (growth s) (terminal_g s)) as [Hlt | Hge].
  - rewrite (growth_at_from_below s k Hd) by lra.
    set (K := inject_Z (Z.of_nat k)) in *. clearbody K.
    destruct (py_min_cases (terminal_g s) (growth s + K * growth_decay s))
      as [[H ->] | [H ->]]; nra.
  - rewrite (growth_at_from_above s k Hd Hge).
    destruct (py_max_cases (terminal_g s)
                (growth s - inject_Z (Z.of_nat k) * growth_decay s))
      as [[H ->] | [H ->]]; lra.
Qed.

Lemma revenue_at_nonneg (k : nat) : 0 <= revenue_at s k.
Proof.
  induction k as [| k IH]; cbn [revenue_at].
  - now destruct Hs as (H & _).
  - pose proof (growth_at_ge_minus_1 k) as Hg.
    set (x := revenue_at s k) in *. set (g := growth_at s k) in *. clearbody x g. nra.
Qed.

Lemma nopat_at_nonneg (i : nat) : 0 <= nopat_at s i.
Proof.
  unfold nopat_at. pose proof (revenue_at_nonneg (Datatypes.S i)) as Hr.
  destruct Hs as (_ & _ & _ & _ & Hm & Ht & _).
  set (x := revenue_at s (Datatypes.S i)) in *. clearbody x.
  assert (0 <= x * ebit_margin s) by nra. nra.
Qed.

Lemma fcf_at_nonneg (i : nat) : 0 <= fcf_at s i.
Proof.
  unfold fcf_at. pose proof (nopat_at_nonneg i) as Hn.
  destruct Hs as (_ & _ & _ & _ & _ & _ & Hr & _).
  set (n := nopat_at s i) in *. clearbody n.
  destruct (py_max_cases 0 (n * reinvestment_rate s)) as [[H ->] | [H ->]]; nra.
Qed.

Lemma cum_pv_at_nonneg (k : nat) : 0 <= cum_pv_at s k.
Proof.
  induction k as [| k IH]; cbn [cum_pv_at]; [apply Qle_refl |].
  pose proof (fcf_at_nonneg k) as Hf.
  assert (Hd : 0 < discount_at s k).
  { apply discount_at_pos. now destruct Hs as (_ & _ & _ & _ & _ & _ & _ & H). }
  set (f := fcf_at s k) in *. set (d := discount_at s k) in *.
  set (x := cum_pv_at s k) in *. clearbody f d x. nra.
Qed.

End UsualInputs.

Lemma round2_nonneg (x : Q) : 0 <= x -> 0 <= round2 x.
Proof.
  intros Hx. apply Qle_trans with (round2 0); [discriminate | now apply round2_le].
Qed.

(** X20.  For inputs in their usual ranges (revenue0, growth_decay and
    margin not negative, growth and terminal growth at least -1, tax and
    reinvestment rates at most 1, wacc above -1) nothing a returned
    projection reports is negative: revenue, NOPAT, free cash flow and
    cumulative present value of every row, the terminal value, its
    present value, and the rounded enterprise value. *)
Theorem valuation_is_not_negative (s : ScenarioParameters)
    (flows : list CashFlowRow) (tv pv_tv : Q) (last_row : CashFlowRow) :
  usual_inputs s ->
  _project_cash_flows s = Ok (flows, tv, pv_tv) ->
  last flows = Some last_row ->
  (forall i row, flows !! i = Some row ->
     0 <= revenue row /\ 0 <= nopat row /\ 0 <= fcf row /\ 0 <= cum_pv row) /\
  0 <= tv /\ 0 <= pv_tv /\ 0 <= round2 (cum_pv last_row + pv_tv).
Proof.
  intros Hs Hrun Hl.
  destruct (_project_cash_flows_rows s flows tv pv_tv Hrun) as (Hf & HN & _).
  assert (Hrows : forall i row, flows !! i = Some row ->
            0 <= revenue row /\ 0 <= nopat row /\ 0 <= fcf row /\ 0 <= cum_pv row).
  { intros i row Hi. rewrite Hf in Hi. apply lookup_rows in Hi as (-> & _).
    cbn [revenue nopat fcf cum_pv row_at].
    split; [now apply revenue_at_nonneg |]. split; [now apply nopat_at_nonneg |].
    split; [now apply fcf_at_nonneg | now apply cum_pv_at_nonneg]. }
  split; [exact Hrows |].
  apply _project_cash_flows_inv in Hrun as (st & l & _ & _ & Hl' & Htv & Hpv).
  assert (l = last_row) by congruence. subst l.
  assert (Hlast : 0 <= nopat last_row /\ 0 <= cum_pv last_row).
  { rewrite last_lookup in Hl. destruct (Hrows _ _ Hl) as (_ & H1 & _ & H2). now split. }
  destruct Hlast as (Hn & Hc).
  pose proof Hs as (_ & _ & Ht & _ & _ & _ & Hr & Hw).
  assert (Hfn : 0 <= nopat last_row * (1 + terminal_g s) * (1 - reinvestment_rate s)).
  { assert (0 <= nopat last_row * (1 + terminal_g s)) by nra. nra. }
  assert (Htv0 : 0 <= tv).
  { rewrite Htv. apply Qle_shift_div_l; [apply gordon_denominator_pos | lra]. }
  assert (Hpv0 : 0 <= pv_tv).
  { rewrite Hpv. apply Qle_shift_div_l; [apply Qpower_0_lt; lra | lra]. }
  split; [exact Htv0 |]. split; [exact Hpv0 |]. apply round2_nonneg. lra.
Qed.

Lemma valuation_is_not_negative_witness :
  let s := _scenario_defaults None 2 0.10 in
  usual_inputs s /\
  exists flows tv pv_tv, _project_cash_flows s = Ok (flows, tv, pv_tv) /\ 0 <= tv.
Proof.
  intros s.
  assert (Hs : usual_inputs s).
  { unfold usual_inputs. repeat split; try reflexivity; intros H; discriminate H. }
  split; [exact Hs |].
  destruct (_project_cash_flows s) as [[[flows tv] pv_tv] | e] eqn:Hrun;
    [| vm_compute in Hrun; discriminate Hrun].
  destruct (last flows) as [last_row |] eqn:Hl;
    [| exfalso; vm_compute in Hrun; injection Hrun as <- _ _; discriminate Hl].
  exists flows, tv, pv_tv. split; [reflexivity |].
  destruct (valuation_is_not_negative s flows tv pv_tv last_row Hs Hrun Hl) as (_ & H & _).
  exact H.
Defined.

(** ** Which exception the endpoint raises *)



